(** * FSLogHandler: a log handler writing to the on-device filesystem

    Shallow embedding of [src/FSLogHandler.h] and [src/FSLogHandler.cpp].

    - C strings are [string]; file contents and the dump buffer are
      [list ascii] (raw bytes, the NUL byte included).
    - [int] and [_off_t] values are [Z]; [unsigned int] values are [Z]
      reduced modulo [2^32] where the code does arithmetic on them.
    - The object's fields are the record [FSLogHandler]; the two
      function-local [static] variables ([last_ran] in [loop], [f_cursor] in
      [dump]) are the record [Statics].
    - The filesystem and the POSIX calls the code makes are the record
      [World] and the [sys_*] functions; every call other than the queries
      [stat] and [fstat] leaves an event in the world's trace, so that "was
      [fsync] called" or "was the file reopened" are statements about the
      trace.
    - [String::concat] appends and [String::operator=] replaces; a call of
      [write] transfers all of its bytes or fails; one call of [loop] reads
      the uptime once. *)

From Stdlib Require Import ZArith String Ascii DecimalString HexadecimalString List Lia.
From stdpp Require Import base strings gmap list.

Open Scope Z_scope.

(** ** The framework the handler is compiled against *)

(** [LogLevel] of the logging framework ([Particle.h]). *)
Inductive LogLevel :=
  | LOG_LEVEL_TRACE
  | LOG_LEVEL_INFO
  | LOG_LEVEL_WARN
  | LOG_LEVEL_ERROR
  | LOG_LEVEL_PANIC
  | LOG_LEVEL_NONE.

(** What the handler takes from its build environment and does not define:
    [LogHandler::levelName], the C library's rendering of [%p], and the value
    of the macro [FS_LOG_HANDLER_DEBUG_LEVEL] (0, 1 or 2; the header ships
    with 0, which compiles every diagnostic print away). *)
Class Platform := {
  levelName : LogLevel -> string;
  format_pointer : Z -> string;
  FS_LOG_HANDLER_DEBUG_LEVEL : nat
}.

(** [LogAttributes] of the framework: each optional attribute is a value
    together with its [has_*] flag. *)
Record LogAttributes := {
  has_file : bool;     file : string;
  has_line : bool;     line : Z;
  has_function : bool; function : string;
  has_time : bool;     time : Z;
  has_code : bool;     code : Z;
  has_details : bool;  details : string
}.

(** ** C strings *)

Definition NUL : ascii := Ascii.zero.
Definition LF : ascii := ascii_of_nat 10.
Definition CR : ascii := ascii_of_nat 13.

Definition ascii_eqb (a b : ascii) : bool := Ascii.eqb a b.

(** [strrchr s c]: the suffix of [s] that starts at the last [c], if any. *)
Fixpoint strrchr (s : string) (c : ascii) : option string :=
  match s with
  | EmptyString => None
  | String a r =>
      match strrchr r c with
      | Some t => Some t
      | None => if ascii_eqb a c then Some s else None
      end
  end.

(** [extractFileName]: [s1 + 1] when [strrchr] finds a slash, else [s]. *)
Definition extractFileName (s : string) : string :=
  match strrchr s "/" with
  | Some (String _ t) => t
  | _ => s
  end.

(** The [for] loop of [extractFuncName]: [s] is the scanning pointer, [s1]
    the candidate start (a suffix of the input), [n] the distance [s - s1]. *)
Fixpoint extractFuncName_scan (s s1 : string) (n : nat) : string * nat :=
  match s with
  | EmptyString => (s1, n)
  | String c r =>
      if ascii_eqb c " " then extractFuncName_scan r r 0
      else if ascii_eqb c "(" then (s1, n)
      else extractFuncName_scan r s1 (S n)
  end.

(** [extractFuncName s &size]: the returned pointer (the input from the
    start of the name up to its terminating NUL) and the value stored in
    [*size]. *)
Definition extractFuncName (s : string) : string * nat :=
  extractFuncName_scan s s 0.

(** The first [n] characters of a C string: what a caller that honours
    [*size] would take. *)
Fixpoint string_take (n : nat) (s : string) : string :=
  match n, s with
  | S k, String c r => String c (string_take k r)
  | _, _ => EmptyString
  end.

(** ** printf-style conversions used by [logMessage] *)

Definition UINT_MOD : Z := 2 ^ 32.

(** A value converted to [unsigned int]. *)
Definition to_unsigned (z : Z) : Z := z mod UINT_MOD.

Fixpoint zero_pad (k : nat) (s : string) : string :=
  match k with
  | O => s
  | S k' => String "0" (zero_pad k' s)
  end.

(** [String::format("%010u ", (unsigned)t)]. *)
Definition format_010u (t : Z) : string :=
  let d := DecimalString.NilZero.string_of_uint (N.to_uint (Z.to_N (to_unsigned t))) in
  zero_pad (10 - String.length d) d +:+ " ".

(** [String(int)]: signed decimal. *)
Definition String_of_int (z : Z) : string :=
  DecimalString.NilZero.string_of_int (Z.to_int z).

(** ** The rendering part of [logMessage]

    The accumulator [s] of the source is rebound line by line.  The two
    statements [s = extractFileName(attr.file)] and
    [s = extractFuncName(attr.function, &n)] are assignments to the
    accumulator, and [s.concat(s)] appends the accumulator to itself. *)
Section Formatter.
Context `{Platform}.

Definition render_time (attr : LogAttributes) (s : string) : string :=
  if has_time attr then s +:+ format_010u (time attr) else s.

Definition render_category (category : option string) (s : string) : string :=
  match category with
  | Some c => s +:+ "[" +:+ c +:+ "] "
  | None => s
  end.

Definition render_file (attr : LogAttributes) (s : string) : string :=
  if has_file attr then
    let s := extractFileName (file attr) in
    let s := s +:+ s in
    let s := if has_line attr then s +:+ ":" +:+ String_of_int (line attr) else s in
    if has_function attr then s +:+ ", " else s +:+ ": "
  else s.

Definition render_function (attr : LogAttributes) (s : string) : string :=
  if has_function attr then
    let s := fst (extractFuncName (function attr)) in
    let s := s +:+ s in
    s +:+ "(): "
  else s.

Definition render_level (level : LogLevel) (s : string) : string :=
  s +:+ levelName level +:+ ": ".

Definition render_msg (msg : option string) (s : string) : string :=
  match msg with
  | Some m => s +:+ m
  | None => s
  end.

Definition render_attrs (attr : LogAttributes) (s : string) : string :=
  if has_code attr || has_details attr then
    let s := s +:+ " [" in
    let s := if has_code attr then s +:+ "code = " +:+ format_pointer (code attr) else s in
    let s := if has_details attr then
               let s := if has_code attr then s +:+ ", " else s in
               s +:+ "details = " +:+ details attr
             else s in
    s +:+ "]"
  else s.

Definition line_end : string := String LF (String CR EmptyString).

(** The string [logMessage] hands to [writeToFile]. *)
Definition render (msg : option string) (level : LogLevel)
    (category : option string) (attr : LogAttributes) : string :=
  let s := EmptyString in
  let s := render_time attr s in
  let s := render_category category s in
  let s := render_file attr s in
  let s := render_function attr s in
  let s := render_level level s in
  let s := render_msg msg s in
  let s := render_attrs attr s in
  s +:+ line_end.
End Formatter.

(** ** The filesystem and the POSIX calls *)

Inductive node :=
  | Dir
  | File (content : list ascii).

Inductive OpenFlags :=
  | O_RDONLY
  | O_WRONLY_CREAT_TRUNC.

(** An open descriptor: the path it was opened on, its file offset and the
    flags it was opened with. *)
Record fdesc := { fd_path : string; fd_off : nat; fd_flags : OpenFlags }.

(** The diagnostic prints of the source, by call site. *)
Inductive Diag :=
  | TraceFileClosed
  | TraceLogsCleared
  | DebugWriteFailed
  | TraceWrite (message : string)
  | DebugLoopFsync (bytes : Z)
  | DebugOpenFailed
  | TraceOpened
  | DebugDumpOpenFailed
  | TraceFileInitFalse
  | DebugDirExists
  | DebugFileInTheWay
  | DebugStatFailed
  | DebugCreatedDir
  | DebugMkdirFailed.

Inductive Event :=
  | EOpen (path : string) (flags : OpenFlags) (result : Z)
  | EWrite (fd : Z) (data : string) (result : Z)
  | ERead (fd : Z) (result : Z)
  | ELseek (fd : Z) (off : Z)
  | EFsync (fd : Z)
  | EClose (fd : Z)
  | EUnlink (path : string)
  | EMkdir (path : string) (result : Z)
  | ESerial (d : Diag)
  | EProcess.

(** The world outside the object: directory tree, descriptor table and the
    calls made so far (newest first). *)
Record World := {
  fs : gmap string node;
  fds : gmap Z fdesc;
  trace : list Event
}.

Definition emit (e : Event) (w : World) : World :=
  {| fs := fs w; fds := fds w; trace := e :: trace w |}.

Definition with_fs (m : gmap string node) (w : World) : World :=
  {| fs := m; fds := fds w; trace := trace w |}.

Definition with_fds (m : gmap Z fdesc) (w : World) : World :=
  {| fs := fs w; fds := m; trace := trace w |}.

(** Failures the environment may inject into one call of a method: they
    stand for the causes the directory tree does not represent (no space
    left, I/O error, permissions). *)
Record Faults := {
  stat_fails : bool;
  mkdir_fails : bool;
  open_fails : bool;
  write_fails : bool
}.

Definition no_faults : Faults :=
  {| stat_fails := false; mkdir_fails := false; open_fails := false; write_fails := false |}.

(** The directory part of a path, when it is not the root or the current
    directory (both taken to exist). *)
Definition parent_dir (path : string) : option string :=
  match strrchr path "/" with
  | None => None
  | Some t =>
      match string_take (String.length path - String.length t) path with
      | EmptyString => None
      | d => Some d
      end
  end.

Definition parent_ok (m : gmap string node) (path : string) : bool :=
  match parent_dir path with
  | None => true
  | Some d => match m !! d with Some Dir => true | _ => false end
  end.

(** Descriptors are handed out lowest-first above the three standard
    streams. *)
Definition MINIMAL_FD : Z := 3.

Definition fd_free (m : gmap Z fdesc) (k : Z) : bool :=
  match m !! k with None => true | Some _ => false end.

Definition alloc_fd (m : gmap Z fdesc) : option Z :=
  List.find (fd_free m) (seqZ MINIMAL_FD (Z.of_nat (size m) + 1)).

Inductive StatResult :=
  | StatOk (n : node)
  | StatENOENT
  | StatError.

Definition sys_stat (fault : bool) (path : string) (w : World) : StatResult :=
  if fault then StatError
  else match fs w !! path with
       | Some n => StatOk n
       | None => StatENOENT
       end.

(** [st_size] of a node. *)
Definition node_size (n : node) : Z :=
  match n with
  | Dir => 0
  | File c => Z.of_nat (length c)
  end.

Definition sys_fstat (fd : Z) (w : World) : option node :=
  match fds w !! fd with
  | Some d => fs w !! fd_path d
  | None => None
  end.

Definition sys_unlink (path : string) (w : World) : Z * World :=
  match fs w !! path with
  | Some (File _) => (0, emit (EUnlink path) (with_fs (delete path (fs w)) w))
  | _ => (-1, emit (EUnlink path) w)
  end.

Definition sys_mkdir (fault : bool) (path : string) (w : World) : Z * World :=
  if fault then (-1, emit (EMkdir path (-1)) w)
  else match fs w !! path with
       | Some _ => (-1, emit (EMkdir path (-1)) w)
       | None =>
           if parent_ok (fs w) path
           then (0, emit (EMkdir path 0) (with_fs (<[path := Dir]> (fs w)) w))
           else (-1, emit (EMkdir path (-1)) w)
       end.

Definition open_failed (path : string) (flags : OpenFlags) (w : World) : Z * World :=
  (-1, emit (EOpen path flags (-1)) w).

Definition open_new (path : string) (flags : OpenFlags) (m : gmap string node)
    (w : World) : Z * World :=
  match alloc_fd (fds w) with
  | None => open_failed path flags w
  | Some fd =>
      let d := {| fd_path := path; fd_off := 0; fd_flags := flags |} in
      (fd, emit (EOpen path flags fd) (with_fds (<[fd := d]> (fds w)) (with_fs m w)))
  end.

(** [open(path, flags)]: [O_RDONLY] needs an existing regular file;
    [O_WRONLY | O_CREAT | O_TRUNC] needs the parent directory, and leaves
    the file empty whether or not it existed. *)
Definition sys_open (fault : bool) (path : string) (flags : OpenFlags)
    (w : World) : Z * World :=
  if fault then open_failed path flags w
  else match flags, fs w !! path with
       | _, Some Dir => open_failed path flags w
       | O_RDONLY, None => open_failed path flags w
       | O_RDONLY, Some (File _) => open_new path flags (fs w) w
       | O_WRONLY_CREAT_TRUNC, _ =>
           if parent_ok (fs w) path
           then open_new path flags (<[path := File []]> (fs w)) w
           else open_failed path flags w
       end.

(** The bytes of a file after [data] is written at offset [off]; a gap
    between the end of the file and [off] reads as zeros. *)
Definition write_at (off : nat) (data c : list ascii) : list ascii :=
  take off c ++ replicate (off - length c) NUL ++ data ++ drop (off + length data) c.

(** [write(fd, data, len)]: all of [data] or nothing. *)
Definition sys_write (fault : bool) (fd : Z) (data : string) (w : World) : Z * World :=
  let failed := (-1, emit (EWrite fd data (-1)) w) in
  if fault then failed
  else match fds w !! fd with
       | Some d =>
           match fd_flags d, fs w !! fd_path d with
           | O_WRONLY_CREAT_TRUNC, Some (File c) =>
               let bytes := list_ascii_of_string data in
               let c' := write_at (fd_off d) bytes c in
               let d' := {| fd_path := fd_path d;
                            fd_off := (fd_off d + length bytes)%nat;
                            fd_flags := fd_flags d |} in
               let n := Z.of_nat (length bytes) in
               (n, emit (EWrite fd data n)
                     (with_fds (<[fd := d']> (fds w))
                        (with_fs (<[fd_path d := File c']> (fs w)) w)))
           | _, _ => failed
           end
       | None => failed
       end.

(** [read(fd, buf, count)]: the result and the bytes stored into [buf]. *)
Definition sys_read (fd : Z) (count : nat) (w : World) : Z * list ascii * World :=
  let failed := (-1, [], emit (ERead fd (-1)) w) in
  match fds w !! fd with
  | Some d =>
      match fd_flags d, fs w !! fd_path d with
      | O_RDONLY, Some (File c) =>
          let chunk := take count (drop (fd_off d) c) in
          let d' := {| fd_path := fd_path d;
                       fd_off := (fd_off d + length chunk)%nat;
                       fd_flags := fd_flags d |} in
          let n := Z.of_nat (length chunk) in
          (n, chunk, emit (ERead fd n) (with_fds (<[fd := d']> (fds w)) w))
      | _, _ => failed
      end
  | None => failed
  end.

(** [lseek(fd, off, SEEK_SET)]. *)
Definition sys_lseek (fd : Z) (off : Z) (w : World) : Z * World :=
  match fds w !! fd with
  | Some d =>
      if 0 <=? off then
        let d' := {| fd_path := fd_path d; fd_off := Z.to_nat off; fd_flags := fd_flags d |} in
        (off, emit (ELseek fd off) (with_fds (<[fd := d']> (fds w)) w))
      else (-1, emit (ELseek fd off) w)
  | None => (-1, emit (ELseek fd off) w)
  end.

(** [fsync] changes nothing a reader can see; it is kept as an event. *)
Definition sys_fsync (fd : Z) (w : World) : Z * World :=
  match fds w !! fd with
  | Some _ => (0, emit (EFsync fd) w)
  | None => (-1, emit (EFsync fd) w)
  end.

Definition sys_close (fd : Z) (w : World) : Z * World :=
  match fds w !! fd with
  | Some _ => (0, emit (EClose fd) (with_fds (delete fd (fds w)) w))
  | None => (-1, emit (EClose fd) w)
  end.

(** ** The object *)

Record FSLogHandler := {
  _enabled : bool;
  _fd : Z;
  _open : bool;
  _path : string;
  _bytes_queued : Z;
  _max_bytes_queued : Z;
  _fsync_timeout_s : Z
}.

(** The function-local statics: [last_ran] of [loop] is initialised by the
    first call of [loop] ([None] before it), [f_cursor] of [dump] starts
    at 0. *)
Record Statics := {
  last_ran : option Z;
  f_cursor : Z
}.

Definition statics_init : Statics := {| last_ran := None; f_cursor := 0 |}.

Definition set_enabled (b : bool) (h : FSLogHandler) : FSLogHandler :=
  {| _enabled := b; _fd := _fd h; _open := _open h; _path := _path h;
     _bytes_queued := _bytes_queued h; _max_bytes_queued := _max_bytes_queued h;
     _fsync_timeout_s := _fsync_timeout_s h |}.

Definition set_fd (fd : Z) (h : FSLogHandler) : FSLogHandler :=
  {| _enabled := _enabled h; _fd := fd; _open := _open h; _path := _path h;
     _bytes_queued := _bytes_queued h; _max_bytes_queued := _max_bytes_queued h;
     _fsync_timeout_s := _fsync_timeout_s h |}.

Definition set_open (b : bool) (h : FSLogHandler) : FSLogHandler :=
  {| _enabled := _enabled h; _fd := _fd h; _open := b; _path := _path h;
     _bytes_queued := _bytes_queued h; _max_bytes_queued := _max_bytes_queued h;
     _fsync_timeout_s := _fsync_timeout_s h |}.

Definition set_bytes_queued (n : Z) (h : FSLogHandler) : FSLogHandler :=
  {| _enabled := _enabled h; _fd := _fd h; _open := _open h; _path := _path h;
     _bytes_queued := n; _max_bytes_queued := _max_bytes_queued h;
     _fsync_timeout_s := _fsync_timeout_s h |}.

Definition set_last_ran (t : Z) (st : Statics) : Statics :=
  {| last_ran := Some t; f_cursor := f_cursor st |}.

Definition set_f_cursor (c : Z) (st : Statics) : Statics :=
  {| last_ran := last_ran st; f_cursor := c |}.

(** [configureFsync(max_bytes, timeout_s)]. *)
Definition configureFsync (max_bytes timeout_s : Z) (h : FSLogHandler) : FSLogHandler :=
  {| _enabled := _enabled h; _fd := _fd h; _open := _open h; _path := _path h;
     _bytes_queued := _bytes_queued h; _max_bytes_queued := max_bytes;
     _fsync_timeout_s := timeout_s |}.

(** [enable(enable)]. *)
Definition enable (b : bool) (h : FSLogHandler) : FSLogHandler := set_enabled b h.

Definition getPath (h : FSLogHandler) : string := _path h.

(** The constructor; the two thresholds have no value before the call of
    [configureFsync] and are written as 0 here. *)
Definition construct (filename : string) (enable_now : bool) : FSLogHandler :=
  configureFsync 4096 10
    {| _enabled := enable_now; _open := false; _fd := -1;
       _path := "/log/" +:+ filename +:+ ".log";
       _bytes_queued := 0; _max_bytes_queued := 0; _fsync_timeout_s := 0 |}.

(** [dump]'s buffer [char buf[1024]]: 1024 bytes of whatever the stack
    holds. *)
Definition BUF_SIZE : nat := 1024.

Definition stack_buffer (stack : list ascii) : list ascii :=
  take BUF_SIZE (stack ++ replicate BUF_SIZE NUL).

(** [read] stores its bytes at the start of the buffer. *)
Definition buf_fill (data buf : list ascii) : list ascii :=
  data ++ drop (length data) buf.

(** [buf[i] = c]; a store outside the array does not change the array. *)
Definition buf_store (i : Z) (c : ascii) (buf : list ascii) : list ascii :=
  if (0 <=? i) && (i <? Z.of_nat (length buf)) then <[Z.to_nat i := c]> buf else buf.

(** What [printf("%s", buf)] prints: the bytes before the first NUL. *)
Fixpoint c_string (buf : list ascii) : list ascii :=
  match buf with
  | [] => []
  | c :: r => if ascii_eqb c NUL then [] else c :: c_string r
  end.

(** A call that may still be inside its loop when the fuel is spent. *)
Inductive Outcome (A : Type) :=
  | Returned (a : A)
  | Running (a : A).
Arguments Returned {A} a.
Arguments Running {A} a.

Section Methods.
Context `{Platform}.

(** [DEBUG_PRINTF]/[DEBUG_PRINTLNF]: active at debug level 1 and above. *)
Definition DEBUG_PRINT (d : Diag) (w : World) : World :=
  if (0 <? FS_LOG_HANDLER_DEBUG_LEVEL)%nat then emit (ESerial d) w else w.

(** [TRACE_PRINTF]/[TRACE_PRINTLNF]: active at debug level 2. *)
Definition TRACE_PRINT (d : Diag) (w : World) : World :=
  if (1 <? FS_LOG_HANDLER_DEBUG_LEVEL)%nat then emit (ESerial d) w else w.

Definition syncAndClose (h : FSLogHandler) (w : World) : FSLogHandler * World :=
  if _open h then
    let w := snd (sys_fsync (_fd h) w) in
    let w := snd (sys_close (_fd h) w) in
    let h := set_bytes_queued 0 h in
    let h := set_open false h in
    (h, TRACE_PRINT TraceFileClosed w)
  else (h, w).

(** The destructor (the handler's removal from the log manager is not
    represented). *)
Definition destroy (h : FSLogHandler) (w : World) : FSLogHandler * World :=
  syncAndClose h w.

(** [getLogSize]: [statbuf] is an uninitialised local, so [st_size] holds
    the stack's [garbage] unless [fstat]/[stat] succeeds and fills it. *)
Definition getLogSize (garbage : Z) (h : FSLogHandler) (w : World) : Z :=
  let st_size := garbage in
  let st_size :=
    if _open h then
      match sys_fstat (_fd h) w with
      | Some n => node_size n
      | None => st_size
      end
    else
      match sys_stat false (_path h) w with
      | StatOk n => node_size n
      | _ => st_size
      end in
  st_size.

Definition clearLogs (h : FSLogHandler) (w : World) : FSLogHandler * World :=
  let '(h, w) := syncAndClose h w in
  let w := snd (sys_unlink (getPath h) w) in
  (h, TRACE_PRINT TraceLogsCleared w).

Definition writeToFile (flt : Faults) (message : string) (h : FSLogHandler)
    (w : World) : FSLogHandler * World :=
  let '(result, w) := sys_write (write_fails flt) (_fd h) message w in
  if result =? -1 then (h, DEBUG_PRINT DebugWriteFailed w)
  else
    let h := set_bytes_queued
               (to_unsigned (_bytes_queued h + Z.of_nat (String.length message))) h in
    (h, TRACE_PRINT (TraceWrite message) w).

(** [loop]: [now] is the value of [System.uptime()] during the call. *)
Definition loop (now : Z) (h : FSLogHandler) (st : Statics) (w : World)
    : FSLogHandler * Statics * World :=
  let last := match last_ran st with Some t => t | None => now end in
  let st := set_last_ran last st in
  if _open h then
    if ((to_unsigned (now - last) >? 10) && (_bytes_queued h >? 0))
       || (_bytes_queued h >? 4096)
    then
      let w := DEBUG_PRINT (DebugLoopFsync (_bytes_queued h)) w in
      let w := snd (sys_fsync (_fd h) w) in
      let h := set_bytes_queued 0 h in
      let st := set_last_ran now st in
      (h, st, w)
    else (h, st, w)
  else (h, st, w).

Definition createDirIfNecessary (flt : Faults) (path : string) (w : World)
    : bool * World :=
  let do_mkdir w :=
    let '(result, w) := sys_mkdir (mkdir_fails flt) path w in
    if result =? 0 then (true, DEBUG_PRINT DebugCreatedDir w)
    else (false, DEBUG_PRINT DebugMkdirFailed w) in
  match sys_stat (stat_fails flt) path w with
  | StatOk Dir => (true, DEBUG_PRINT DebugDirExists w)
  | StatOk (File _) =>
      let w := DEBUG_PRINT DebugFileInTheWay w in
      let w := snd (sys_unlink path w) in
      do_mkdir w
  | StatENOENT => do_mkdir w
  | StatError => (false, DEBUG_PRINT DebugStatFailed w)
  end.

Definition fileInit (flt : Faults) (h : FSLogHandler) (w : World)
    : bool * FSLogHandler * World :=
  if negb (_open h) || (_fd h =? -1) then
    let w := snd (createDirIfNecessary flt "/log" w) in
    let '(fd, w) := sys_open (open_fails flt) (_path h) O_WRONLY_CREAT_TRUNC w in
    let h := set_fd fd h in
    if _fd h =? -1 then
      let w := DEBUG_PRINT DebugOpenFailed w in
      (false, set_open false h, w)
    else
      let w := TRACE_PRINT TraceOpened w in
      (true, set_open true h, w)
  else (true, h, w).

Definition logMessage (flt : Faults) (msg : option string) (level : LogLevel)
    (category : option string) (attr : LogAttributes)
    (h : FSLogHandler) (w : World) : FSLogHandler * World :=
  if negb (_enabled h) then (h, w)
  else
    let '(ok, h, w) := fileInit flt h w in
    if negb ok then (h, TRACE_PRINT TraceFileInitFalse w)
    else writeToFile flt (render msg level category attr) h w.

(** The [do ... while (bytes)] loop of [dump]; [sink] is everything the
    stream has been sent. *)
Fixpoint dump_loop (fuel : nat) (dump_fd : Z) (buf : list ascii) (st : Statics)
    (sink : list ascii) (w : World) : Outcome (Statics * list ascii * World) :=
  match fuel with
  | O => Running (st, sink, w)
  | S fuel' =>
      let '(bytes, data, w) := sys_read dump_fd (BUF_SIZE - 1) w in
      let buf := buf_fill data buf in
      let st := set_f_cursor (f_cursor st + bytes) st in
      let buf := buf_store bytes NUL buf in
      let sink := sink ++ c_string buf in
      let w := emit EProcess w in
      if bytes =? 0 then Returned (st, sink, w)
      else dump_loop fuel' dump_fd buf st sink w
  end.

(** [dump(stream, read_from_beginning)]. The guard [if (!dump_fd)] is the
    test [dump_fd == 0]. *)
Definition dump (flt : Faults) (stack : list ascii) (fuel : nat)
    (read_from_beginning : bool) (h : FSLogHandler) (st : Statics)
    (sink : list ascii) (w : World) : Outcome (Statics * list ascii * World) :=
  let '(dump_fd, w) := sys_open (open_fails flt) (_path h) O_RDONLY w in
  if dump_fd =? 0 then Returned (st, sink, DEBUG_PRINT DebugDumpOpenFailed w)
  else
    let '(st, w) :=
      if read_from_beginning then (set_f_cursor 0 st, w)
      else (st, snd (sys_lseek dump_fd (f_cursor st) w)) in
    match dump_loop fuel dump_fd (stack_buffer stack) st sink w with
    | Returned (st, sink, w) => Returned (st, sink, snd (sys_close dump_fd w))
    | Running r => Running r
    end.
End Methods.

(** ** Programs: sequences of calls on one handler *)

(** The handler together with everything else a call can touch; [console]
    is the stream [dump] is pointed at. *)
Record Sys := {
  obj : FSLogHandler;
  statics : Statics;
  console : list ascii;
  world : World
}.

Inductive Call :=
  | CallLogMessage (flt : Faults) (msg : option string) (level : LogLevel)
      (category : option string) (attr : LogAttributes)
  | CallLoop (now : Z)
  | CallClearLogs
  | CallConfigureFsync (max_bytes timeout_s : Z)
  | CallEnable (b : bool)
  | CallDump (flt : Faults) (stack : list ascii) (fuel : nat) (read_from_beginning : bool)
  | CallDestroy.

(** The state right after the constructor has run in world [w]. *)
Definition boot (filename : string) (enable_now : bool) (w : World) : Sys :=
  {| obj := construct filename enable_now; statics := statics_init;
     console := []; world := w |}.

Section Programs.
Context `{Platform}.

(** One call; [None] when the call is a [dump] that has not returned
    within its fuel. *)
Definition step (c : Call) (s : Sys) : option Sys :=
  match c with
  | CallLogMessage flt msg level category attr =>
      let '(h, w) := logMessage flt msg level category attr (obj s) (world s) in
      Some {| obj := h; statics := statics s; console := console s; world := w |}
  | CallLoop now =>
      let '(h, st, w) := loop now (obj s) (statics s) (world s) in
      Some {| obj := h; statics := st; console := console s; world := w |}
  | CallClearLogs =>
      let '(h, w) := clearLogs (obj s) (world s) in
      Some {| obj := h; statics := statics s; console := console s; world := w |}
  | CallConfigureFsync max_bytes timeout_s =>
      Some {| obj := configureFsync max_bytes timeout_s (obj s); statics := statics s;
              console := console s; world := world s |}
  | CallEnable b =>
      Some {| obj := enable b (obj s); statics := statics s;
              console := console s; world := world s |}
  | CallDump flt stack fuel read_from_beginning =>
      match dump flt stack fuel read_from_beginning (obj s) (statics s)
              (console s) (world s) with
      | Returned (st, sink, w) =>
          Some {| obj := obj s; statics := st; console := sink; world := w |}
      | Running _ => None
      end
  | CallDestroy =>
      let '(h, w) := destroy (obj s) (world s) in
      Some {| obj := h; statics := statics s; console := console s; world := w |}
  end.

Fixpoint run (cs : list Call) (s : Sys) : option Sys :=
  match cs with
  | [] => Some s
  | c :: cs' =>
      match step c s with
      | Some s' => run cs' s'
      | None => None
      end
  end.

(** The ticks of the host loop: [loop] called at each of [nows] in turn. *)
Fixpoint ticks (nows : list Z) (h : FSLogHandler) (st : Statics) (w : World)
    : FSLogHandler * Statics * World :=
  match nows with
  | [] => (h, st, w)
  | now :: nows' =>
      let '(h, st, w) := loop now h st w in
      ticks nows' h st w
  end.

(** A sequence of [logMessage] calls, one per record. *)
Fixpoint logMessages
    (records : list (Faults * option string * LogLevel * option string * LogAttributes))
    (h : FSLogHandler) (w : World) : FSLogHandler * World :=
  match records with
  | [] => (h, w)
  | (flt, msg, level, category, attr) :: rest =>
      let '(h, w) := logMessage flt msg level category attr h w in
      logMessages rest h w
  end.
End Programs.

(** ** Reading the trace *)

Definition is_fsync (e : Event) : bool :=
  match e with EFsync _ => true | _ => false end.

Definition is_open_trunc (e : Event) : bool :=
  match e with EOpen _ O_WRONLY_CREAT_TRUNC _ => true | _ => false end.

Definition is_write (e : Event) : bool :=
  match e with EWrite _ _ _ => true | _ => false end.

Definition is_serial (e : Event) : bool :=
  match e with ESerial _ => true | _ => false end.

Definition count_events (p : Event -> bool) (t : list Event) : nat :=
  length (List.filter p t).

(** ** State predicates *)

(** The writer's state invariant. *)
Definition Inv (h : FSLogHandler) : Prop :=
  (_open h = false -> _bytes_queued h = 0) /\ (_open h = true -> _fd h <> -1).

(** The open handle and the file agree: the descriptor is the handler's
    write descriptor on its own path and its offset is the end of the
    file, whose content is [c]. *)
Definition Attached (h : FSLogHandler) (w : World) (c : list ascii) : Prop :=
  fds w !! _fd h
    = Some {| fd_path := _path h; fd_off := length c; fd_flags := O_WRONLY_CREAT_TRUNC |}
  /\ fs w !! _path h = Some (File c).

(** The invariant of a running system: the writer's invariant, the counter
    within [unsigned int], and an open handler attached to the file at its
    path. *)
Definition Good (s : Sys) : Prop :=
  Inv (obj s)
  /\ 0 <= _bytes_queued (obj s) < UINT_MOD
  /\ (_open (obj s) = true -> exists c, Attached (obj s) (world s) c).

(** Text: a byte string without NUL, as every C string is. *)
Definition nul_free (c : list ascii) : Prop := Forall (fun a => a <> NUL) c.

(** A C string: its characters up to the terminator, none of them NUL. *)
Definition c_str (s : string) : Prop := nul_free (list_ascii_of_string s).

Definition c_str_opt (o : option string) : Prop :=
  match o with Some s => c_str s | None => True end.

(** The condition [loop] is documented to evaluate: the configured
    thresholds against the pending bytes and the time since [last_ran]. *)
Definition elapsed (now : Z) (st : Statics) : Z :=
  to_unsigned (now - match last_ran st with Some t => t | None => now end).

Definition flush_due (now : Z) (h : FSLogHandler) (st : Statics) : Prop :=
  _bytes_queued h > _max_bytes_queued h
  \/ (_bytes_queued h <> 0 /\ elapsed now st > _fsync_timeout_s h).

(** ** Sample data *)

(** A platform to run the examples on: the framework's level names, [%p]
    as [0x] followed by lowercase hexadecimal, all diagnostics enabled. *)
Definition sample_levelName (l : LogLevel) : string :=
  match l with
  | LOG_LEVEL_TRACE => "TRACE"
  | LOG_LEVEL_INFO => "INFO"
  | LOG_LEVEL_WARN => "WARN"
  | LOG_LEVEL_ERROR => "ERROR"
  | LOG_LEVEL_PANIC => "PANIC"
  | LOG_LEVEL_NONE => "NONE"
  end.

Definition sample_format_pointer (z : Z) : string :=
  "0x" +:+ HexadecimalString.NilZero.string_of_uint (N.to_hex_uint (Z.to_N z)).

Definition sample_platform : Platform :=
  {| levelName := sample_levelName;
     format_pointer := sample_format_pointer;
     FS_LOG_HANDLER_DEBUG_LEVEL := 2 |}.

(** The header's own setting: debug level 0. *)
Definition shipped_platform : Platform :=
  {| levelName := sample_levelName;
     format_pointer := sample_format_pointer;
     FS_LOG_HANDLER_DEBUG_LEVEL := 0 |}.

Definition no_attr : LogAttributes :=
  {| has_file := false; file := ""; has_line := false; line := 0;
     has_function := false; function := ""; has_time := false; time := 0;
     has_code := false; code := 0; has_details := false; details := "" |}.

(** A record with every optional field present. *)
Definition full_attr : LogAttributes :=
  {| has_file := true; file := "src/main.cpp"; has_line := true; line := 42;
     has_function := true; function := "void setup(int)"; has_time := true; time := 1234;
     has_code := true; code := 255; has_details := true; details := "d" |}.

(** A record with a timestamp, a category and a source file, no function. *)
Definition file_attr : LogAttributes :=
  {| has_file := true; file := "src/main.cpp"; has_line := true; line := 42;
     has_function := false; function := ""; has_time := true; time := 1234;
     has_code := false; code := 0; has_details := false; details := "" |}.

Definition empty_world : World := {| fs := ∅; fds := ∅; trace := [] |}.

(** A filesystem that already has [/log] and an old [/log/test.log]. *)
Definition used_world : World :=
  {| fs := <["/log/test.log" := File (list_ascii_of_string "old")]> (<["/log" := Dir]> ∅);
     fds := ∅; trace := [] |}.

(** The same filesystem once the log has grown by three bytes. *)
Definition grown_world : World :=
  {| fs := <["/log/test.log" := File (list_ascii_of_string "oldnew")]> (<["/log" := Dir]> ∅);
     fds := ∅; trace := [] |}.

(** A handler that has its file open on descriptor 3 with 5 bytes pending,
    and the world that goes with it. *)
Definition open_handler : FSLogHandler :=
  set_bytes_queued 5 (set_open true (set_fd 3 (construct "test" true))).

Definition open_world : World :=
  {| fs := <["/log/test.log" := File (list_ascii_of_string "hello")]> (<["/log" := Dir]> ∅);
     fds := <[3 := {| fd_path := "/log/test.log"; fd_off := 5;
                      fd_flags := O_WRONLY_CREAT_TRUNC |}]> ∅;
     trace := [] |}.

(** The environment of a call whose [write] fails. *)
Definition write_fault : Faults :=
  {| stat_fails := false; mkdir_fails := false; open_fails := false; write_fails := true |}.

(** A short program: log one record, tick, clear. *)
Definition sample_calls : list Call :=
  [CallLogMessage no_faults (Some "hi") LOG_LEVEL_INFO (Some "app") no_attr;
   CallLoop 5;
   CallClearLogs].

Definition sample_final : Sys :=
  match @run sample_platform sample_calls (boot "test" true used_world) with
  | Some s => s
  | None => boot "test" true used_world
  end.

(** Write a record, dump from the beginning, write another, dump the
    rest. *)
Definition tail_calls : list Call :=
  [CallLogMessage no_faults (Some "one") LOG_LEVEL_INFO (Some "app") no_attr;
   CallDump no_faults [] 5 true;
   CallLogMessage no_faults (Some "two") LOG_LEVEL_WARN None no_attr;
   CallDump no_faults [] 5 false].

(** Lower both thresholds, write 114 bytes, tick at 0 s and at 5 s. *)
Definition reconfigured_calls : list Call :=
  [CallConfigureFsync 100 1;
   CallLogMessage no_faults
     (Some "0123456789012345678901234567890123456789012345678901234567890123456789012345678901234567890123456789")
     LOG_LEVEL_INFO (Some "app") no_attr;
   CallLoop 0;
   CallLoop 5].

(** ** More predicates and sample data *)

(** [string_mem c s]: the character [c] occurs in [s]. *)
Fixpoint string_mem (c : ascii) (s : string) : bool :=
  match s with
  | EmptyString => false
  | String a r => ascii_eqb a c || string_mem c r
  end.

(** The environment of one [logMessage] record. *)
Definition record_faults
    (r : Faults * option string * LogLevel * option string * LogAttributes) : Faults :=
  let '(flt, _, _, _, _) := r in flt.

(** The environment of a call whose [open] fails. *)
Definition open_fault : Faults :=
  {| stat_fails := false; mkdir_fails := false; open_fails := true; write_fails := false |}.

(** The environment of a call whose [stat] fails with an I/O error. *)
Definition stat_fault : Faults :=
  {| stat_fails := true; mkdir_fails := false; open_fails := false; write_fails := false |}.

(** The environment of a call whose [mkdir] fails. *)
Definition mkdir_fault : Faults :=
  {| stat_fails := false; mkdir_fails := true; open_fails := false; write_fails := false |}.

(** A platform whose [%p] rendering is a fixed string. *)
Definition plain_platform : Platform :=
  {| levelName := sample_levelName;
     format_pointer := fun _ => "(ptr)";
     FS_LOG_HANDLER_DEBUG_LEVEL := 1 |}.

(** A filesystem where a regular file occupies [/log]. *)
Definition blocked_world : World :=
  {| fs := <["/log" := File (list_ascii_of_string "x")]> ∅; fds := ∅; trace := [] |}.

(** A log file that holds a NUL byte between two words. *)
Definition binary_world : World :=
  {| fs := <["/log/test.log" := File (list_ascii_of_string "ab" ++ NUL :: list_ascii_of_string "cd")]>
             (<["/log" := Dir]> ∅);
     fds := ∅; trace := [] |}.

Definition tail_final : Sys :=
  match @run sample_platform tail_calls (boot "test" true used_world) with
  | Some s => s
  | None => boot "test" true used_world
  end.

(** The outcome of a [dump] of the binary file, returned or not. *)
Definition binary_dump : Statics * list ascii * World :=
  match @dump sample_platform no_faults [] 5 true (construct "test" true) statics_init
          [] binary_world with
  | Returned r => r
  | Running r => r
  end.

Definition two_failed_opens
    : list (Faults * option string * LogLevel * option string * LogAttributes) :=
  [(open_fault, Some "a", LOG_LEVEL_INFO, None, no_attr);
   (open_fault, Some "b", LOG_LEVEL_WARN, Some "app", no_attr)].

(** ** Measured against the words of the specification *)

Section Written.
Context `{Platform}.

(** What a sequence of records adds to a file that stays open: the
    rendered line of each record whose [write] is not made to fail. *)
Fixpoint written
    (records : list (Faults * option string * LogLevel * option string * LogAttributes))
    : list ascii :=
  match records with
  | [] => []
  | (flt, msg, level, category, attr) :: rest =>
      (if write_fails flt then []
       else list_ascii_of_string (render msg level category attr))
      ++ written rest
  end.

(** The time of the last durability sync, whoever made it: a call made at
    time [t] that adds an [fsync] to the trace moves it to [t]. *)
Definition sync_time (t : Z) (before after : World) (last : option Z) : option Z :=
  if (count_events is_fsync (trace before) <? count_events is_fsync (trace after))%nat
  then Some t else last.

(** A program whose calls carry the time at which they are made; beside
    the state it returns the time of the last sync. *)
Fixpoint timed_run (cs : list (Z * Call)) (s : Sys) (last : option Z)
    : option (Sys * option Z) :=
  match cs with
  | [] => Some (s, last)
  | (t, c) :: cs' =>
      match step c s with
      | Some s' => timed_run cs' s' (sync_time t (world s) (world s') last)
      | None => None
      end
  end.
End Written.

(** The flush condition with the time threshold measured as the
    specification words it, from the last sync. *)
Definition flush_due_since_last_sync (now : Z) (h : FSLogHandler) (last : option Z) : Prop :=
  _bytes_queued h > _max_bytes_queued h
  \/ (_bytes_queued h <> 0
      /\ exists t, last = Some t /\ to_unsigned (now - t) > _fsync_timeout_s h).

(** Tick at 0 s, log, tick at 9 s, clear at 9 s, log at 10 s. *)
Definition stale_clock_calls : list (Z * Call) :=
  [(0, CallLoop 0);
   (1, CallLogMessage no_faults (Some "one") LOG_LEVEL_INFO (Some "app") no_attr);
   (9, CallLoop 9);
   (9, CallClearLogs);
   (10, CallLogMessage no_faults (Some "two") LOG_LEVEL_INFO (Some "app") no_attr)].

(** The state and last sync time after [stale_clock_calls]. *)
Definition stale_clock_state : Sys * option Z :=
  match @timed_run sample_platform stale_clock_calls (boot "test" true used_world) None with
  | Some r => r
  | None => (boot "test" true used_world, None)
  end.

(** The old log grown by three bytes, the second of them NUL. *)
Definition nul_grown_world : World :=
  {| fs := <["/log/test.log" :=
               File (list_ascii_of_string "old" ++ list_ascii_of_string "n" ++ NUL
                     :: list_ascii_of_string "w")]> (<["/log" := Dir]> ∅);
     fds := ∅; trace := [] |}.

(** Two records for an open handler: one written, one whose [write]
    fails. *)
Definition two_appends
    : list (Faults * option string * LogLevel * option string * LogAttributes) :=
  [(no_faults, Some "first", LOG_LEVEL_INFO, None, no_attr);
   (write_fault, Some "lost", LOG_LEVEL_WARN, None, no_attr);
   (no_faults, Some "third", LOG_LEVEL_INFO, None, no_attr)].

(** * Properties *)

(** ** Strings *)

Lemma append_assoc (a b c : string) : (a +:+ b) +:+ c = a +:+ (b +:+ c).
Proof.
  induction a as [|x a IH]; [reflexivity|].
  change (String x ((a +:+ b) +:+ c) = String x (a +:+ (b +:+ c))).
  f_equal. exact IH.
Qed.

Lemma length_list_ascii_of_string (s : string) :
  length (list_ascii_of_string s) = String.length s.
Proof.
  induction s as [|x s IH]; [reflexivity|].
  change (S (length (list_ascii_of_string s)) = S (String.length s)).
  f_equal. exact IH.
Qed.

(** ** Traces *)

Lemma count_events_emit (p : Event -> bool) (e : Event) (w : World) :
  count_events p (trace (emit e w))
  = ((if p e then 1 else 0) + count_events p (trace w))%nat.
Proof. unfold count_events. simpl. destruct (p e); reflexivity. Qed.

Section Proofs.
Context `{Platform}.

Lemma DEBUG_PRINT_fs d w : fs (DEBUG_PRINT d w) = fs w.
Proof. unfold DEBUG_PRINT. destruct (_ <? _)%nat; reflexivity. Qed.

Lemma DEBUG_PRINT_fds d w : fds (DEBUG_PRINT d w) = fds w.
Proof. unfold DEBUG_PRINT. destruct (_ <? _)%nat; reflexivity. Qed.

Lemma TRACE_PRINT_fs d w : fs (TRACE_PRINT d w) = fs w.
Proof. unfold TRACE_PRINT. destruct (_ <? _)%nat; reflexivity. Qed.

Lemma TRACE_PRINT_fds d w : fds (TRACE_PRINT d w) = fds w.
Proof. unfold TRACE_PRINT. destruct (_ <? _)%nat; reflexivity. Qed.

Lemma DEBUG_PRINT_count p d w :
  (forall x, p (ESerial x) = false) ->
  count_events p (trace (DEBUG_PRINT d w)) = count_events p (trace w).
Proof.
  intros Hp. unfold DEBUG_PRINT. destruct (_ <? _)%nat; [|reflexivity].
  rewrite count_events_emit, Hp. reflexivity.
Qed.

Lemma TRACE_PRINT_count p d w :
  (forall x, p (ESerial x) = false) ->
  count_events p (trace (TRACE_PRINT d w)) = count_events p (trace w).
Proof.
  intros Hp. unfold TRACE_PRINT. destruct (_ <? _)%nat; [|reflexivity].
  rewrite count_events_emit, Hp. reflexivity.
Qed.

Lemma sys_fsync_count fd w :
  count_events is_fsync (trace (snd (sys_fsync fd w)))
  = S (count_events is_fsync (trace w)).
Proof.
  unfold sys_fsync. destruct (fds w !! fd); cbn [snd];
    rewrite count_events_emit; reflexivity.
Qed.

(** ** The formatter *)

(** Once a function name is present, nothing rendered before it
    survives: the line is built from the function string alone. *)
Lemma render_with_function msg level category attr :
  has_function attr = true ->
  render msg level category attr
  = render_attrs attr (render_msg msg (render_level level
      (let fn := fst (extractFuncName (function attr)) in (fn +:+ fn) +:+ "(): ")))
    +:+ line_end.
Proof. intros Hf. unfold render, render_function. rewrite Hf. reflexivity. Qed.

(** Likewise a source file discards the timestamp and the category. *)
Lemma render_file_discards attr s s' :
  has_file attr = true -> render_file attr s = render_file attr s'.
Proof. intros Hf. unfold render_file. rewrite Hf. reflexivity. Qed.

Lemma render_without_file_function msg level category attr :
  has_file attr = false -> has_function attr = false ->
  render msg level category attr
  = render_attrs attr (render_msg msg (render_level level
      (render_category category (render_time attr ""))))
    +:+ line_end.
Proof.
  intros Hf Hg. unfold render, render_file, render_function.
  rewrite Hf, Hg. reflexivity.
Qed.

(** C1 (code at the failing input). A record with every optional field
    present — timestamp 1234, category [app], file [src/main.cpp], line 42,
    function [void setup(int)], code and details — is rendered as the
    function string with its argument list, twice, followed by the level,
    the message and the attribute block: the timestamp, the category and
    the file segment are not in the line, and the line does not start with
    the timestamp. *)
Theorem C1_render_full_record :
  render (Some "hi") LOG_LEVEL_INFO (Some "app") full_attr
  = ((("setup(int)setup(int)(): " +:+ levelName LOG_LEVEL_INFO) +:+ ": hi [code = ")
       +:+ format_pointer 255) +:+ (", details = d]" +:+ line_end)
  /\ String.prefix (format_010u (time full_attr))
       (render (Some "hi") LOG_LEVEL_INFO (Some "app") full_attr) = false.
Proof.
  split; [|reflexivity].
  rewrite render_with_function by reflexivity.
  unfold render_attrs, render_msg, render_level. simpl.
  rewrite !append_assoc. reflexivity.
Qed.

(** ** Disabled handler *)

Lemma logMessage_disabled flt msg level category attr h w :
  _enabled h = false -> logMessage flt msg level category attr h w = (h, w).
Proof. intros He. unfold logMessage. rewrite He. reflexivity. Qed.

(** C7. While the handler is disabled, any sequence of [logMessage] calls
    leaves the handler and the world exactly as they were: no file is
    created, no descriptor is opened, no call is made and no byte is
    counted as pending. *)
Theorem C7_disabled_logMessage_is_noop :
  forall records h w,
    _enabled h = false -> logMessages records h w = (h, w).
Proof.
  induction records as [|[[[[flt msg] level] category] attr] rest IH];
    intros h w He; simpl.
  - reflexivity.
  - rewrite logMessage_disabled by assumption. apply IH, He.
Qed.

(** ** Write failure *)

Lemma sys_write_result fault fd data w :
  fst (sys_write fault fd data w) = -1 ->
  sys_write fault fd data w = (-1, emit (EWrite fd data (-1)) w).
Proof.
  unfold sys_write. destruct fault; [reflexivity|].
  destruct (fds w !! fd) as [d|]; [|reflexivity].
  destruct (fd_flags d); [reflexivity|].
  destruct (fs w !! fd_path d) as [[|c]|]; try reflexivity.
  simpl. lia.
Qed.

(** C9 (amended). When the [write] call returns -1, [writeToFile] leaves the
    handler (its pending-byte counter included) and the filesystem
    unchanged; the call is made once, and the only other output is the
    diagnostic print, which exists at debug level 1 and above. *)
Theorem C9_write_failure_drops_record :
  forall flt message h w,
    fst (sys_write (write_fails flt) (_fd h) message w) = -1 ->
    let '(h', w') := writeToFile flt message h w in
    h' = h /\ fs w' = fs w /\ fds w' = fds w /\
    trace w' = (if (0 <? FS_LOG_HANDLER_DEBUG_LEVEL)%nat
                then [ESerial DebugWriteFailed] else [])
               ++ EWrite (_fd h) message (-1) :: trace w.
Proof.
  intros flt message h w Hr. unfold writeToFile.
  rewrite (sys_write_result _ _ _ _ Hr). simpl.
  unfold DEBUG_PRINT. destruct (0 <? _)%nat; simpl; auto.
Qed.

(** ** The flush policy *)

Lemma loop_ignores_configuration now a b h st w :
  loop now (configureFsync a b h) st w
  = let '(h', st', w') := loop now h st w in (configureFsync a b h', st', w').
Proof.
  unfold loop; simpl. destruct (_open h); [|reflexivity].
  destruct (_ || _); reflexivity.
Qed.

(** C2 (code at the failing input). [loop] evaluates the constants 10 and
    4096 whatever was passed to [configureFsync]: its effect on a
    reconfigured handler is its effect on the handler as it was.  With
    thresholds (100, 1), 200 bytes pending and 5 seconds since the last
    sync, the configured policy calls for a flush and [loop] does
    nothing. *)
Theorem C2_loop_uses_constants :
  (forall now a b h st w,
      loop now (configureFsync a b h) st w
      = let '(h', st', w') := loop now h st w in (configureFsync a b h', st', w'))
  /\ (let h := set_bytes_queued 200 (set_open true (set_fd 3
                 (configureFsync 100 1 (construct "test" true)))) in
      let st := {| last_ran := Some 0; f_cursor := 0 |} in
      forall w, flush_due 5 h st /\ loop 5 h st w = (h, st, w)).
Proof.
  split.
  - intros. apply loop_ignores_configuration.
  - simpl. intros w. split; [|reflexivity].
    left. simpl. lia.
Qed.

Lemma loop_not_open now h st w :
  _open h = false ->
  loop now h st w
  = (h, set_last_ran (match last_ran st with Some t => t | None => now end) st, w).
Proof. intros Ho. unfold loop. rewrite Ho. reflexivity. Qed.

Lemma loop_nothing_pending now h st w :
  _bytes_queued h = 0 ->
  loop now h st w
  = (h, set_last_ran (match last_ran st with Some t => t | None => now end) st, w).
Proof.
  intros Hb. unfold loop. rewrite Hb. simpl. rewrite andb_false_r. simpl.
  destruct (_open h); reflexivity.
Qed.

Lemma ticks_idle nows :
  forall h st w,
    _open h = false \/ _bytes_queued h = 0 ->
    fst (fst (ticks nows h st w)) = h /\ snd (ticks nows h st w) = w.
Proof.
  induction nows as [|now nows IH]; intros h st w Hidle; simpl.
  - auto.
  - destruct Hidle as [Ho|Hb].
    + rewrite loop_not_open by assumption. apply IH. auto.
    + rewrite loop_nothing_pending by assumption. apply IH. auto.
Qed.

(** C3 (amended). With the thresholds at their defaults, one [loop]
    forces a sync — [fsync] on the handler's own descriptor, and nothing
    else, added to the trace, the pending counter back to 0, [last_ran]
    moved to the time of the call — exactly when the pending bytes exceed
    the byte threshold or are nonzero with more than the time threshold
    elapsed since [last_ran]; [last_ran] is the time of the first call of
    [loop] or of the last sync that [loop] itself forced, not the time of a
    sync made by [clearLogs] or the destructor.  Otherwise the call leaves
    handler and world untouched and only starts the clock if it was not
    running.  However many times [loop] runs while the file is not open or
    nothing is pending, handler and world stay as they are; and from a
    clock that was never started, a tick followed by a tick more than the
    time threshold later syncs the bytes (at most 4096) that were pending
    throughout. *)
Theorem C3_flush_policy_at_defaults :
  forall now h st w,
    _max_bytes_queued h = 4096 -> _fsync_timeout_s h = 10 ->
    0 <= _bytes_queued h ->
    (_open h = false -> _bytes_queued h = 0) ->
    let started := match last_ran st with Some t => t | None => now end in
    let synced := snd (sys_fsync (_fd h) (DEBUG_PRINT (DebugLoopFsync (_bytes_queued h)) w)) in
    (let '(h', st', w') := loop now h st w in
     (flush_due now h st ->
        count_events is_fsync (trace w') = S (count_events is_fsync (trace w))
        /\ _bytes_queued h' = 0 /\ last_ran st' = Some now
        /\ h' = set_bytes_queued 0 h /\ st' = set_last_ran now st /\ w' = synced
        /\ trace w' = EFsync (_fd h) :: trace (DEBUG_PRINT (DebugLoopFsync (_bytes_queued h)) w)
        /\ fs w' = fs w /\ fds w' = fds w)
     /\ (~ flush_due now h st -> h' = h /\ w' = w /\ st' = set_last_ran started st))
    /\ (forall nows,
          _open h = false \/ _bytes_queued h = 0 ->
          fst (fst (ticks nows h st w)) = h /\ snd (ticks nows h st w) = w)
    /\ (forall t0 d,
          last_ran st = None -> _bytes_queued h <> 0 -> _bytes_queued h <= 4096 ->
          10 < d < UINT_MOD ->
          let '(h', st', w') := ticks [t0; to_unsigned (t0 + d)] h st w in
          h' = set_bytes_queued 0 h /\ w' = synced
          /\ last_ran st' = Some (to_unsigned (t0 + d))).
Proof.
  intros now h st w Hmax Htime Hnn Hclosed started synced.
  assert (Htrace : trace synced
                   = EFsync (_fd h) :: trace (DEBUG_PRINT (DebugLoopFsync (_bytes_queued h)) w)
                   /\ fs synced = fs w /\ fds synced = fds w).
  { unfold synced, sys_fsync.
    destruct (fds _ !! _); cbn [snd trace fs fds emit];
      by rewrite DEBUG_PRINT_fs, DEBUG_PRINT_fds. }
  split; [|split; [intros; by apply ticks_idle|]].
  - unfold flush_due, elapsed. rewrite Hmax, Htime.
    unfold loop. fold started.
    destruct (_open h) eqn:Ho.
    + destruct (((to_unsigned _ >? 10) && (_bytes_queued h >? 0))
                || (_bytes_queued h >? 4096)) eqn:Hc.
      * split.
        -- intros _. fold synced. destruct Htrace as (Ht & Hfs & Hfds).
           split; [|split; [|split; [|split; [|split; [|split; [|split; [|split]]]]]]];
             try reflexivity; try assumption.
           unfold synced. by rewrite sys_fsync_count, DEBUG_PRINT_count.
        -- intros Hn. exfalso. apply Hn.
           apply orb_true_iff in Hc. destruct Hc as [Hc|Hc].
           ++ apply andb_true_iff in Hc. destruct Hc as [H1 H2]. right. lia.
           ++ left. lia.
      * split.
        -- intros Hd. exfalso.
           apply orb_false_iff in Hc. destruct Hc as [Hc1 Hc2].
           apply andb_false_iff in Hc1.
           destruct Hd as [Hd|[Hd1 Hd2]]; [lia|]. destruct Hc1; lia.
        -- auto.
    + split.
      * intros Hd. exfalso. specialize (Hclosed eq_refl).
        destruct Hd as [Hd|[Hd _]]; lia.
      * auto.
  - intros t0 d Hnone Hpending Hsmall Hd.
    assert (Ho : _open h = true).
    { destruct (_open h) eqn:Ho; [reflexivity|]. specialize (Hclosed eq_refl). lia. }
    assert (Hdiff : to_unsigned (to_unsigned (t0 + d) - t0) = d).
    { unfold to_unsigned. rewrite Zminus_mod_idemp_l.
      replace (t0 + d - t0) with d by lia. apply Z.mod_small. lia. }
    cbn [ticks]. unfold loop at 1. rewrite Hnone, Ho.
    replace (to_unsigned (t0 - t0)) with 0
      by (unfold to_unsigned; rewrite Z.sub_diag; reflexivity).
    cbn [Z.gtb Z.compare andb orb].
    destruct (_bytes_queued h >? 4096) eqn:Hbig; [exfalso; lia|].
    unfold loop. cbn [last_ran set_last_ran]. rewrite Ho, Hdiff.
      replace (d >? 10) with true by (symmetry; apply Z.gtb_lt; lia).
      replace (_bytes_queued h >? 0) with true by (symmetry; apply Z.gtb_lt; lia).
      cbn [andb orb]. fold synced. auto.
Qed.

(** ** The writer's invariant *)

Lemma construct_Inv filename enable_now : Inv (construct filename enable_now).
Proof. split; simpl; [reflexivity | discriminate]. Qed.

Lemma syncAndClose_closed h w : _open (fst (syncAndClose h w)) = false.
Proof. unfold syncAndClose. destruct (_open h) eqn:Ho; simpl; auto. Qed.

Lemma syncAndClose_path h w : _path (fst (syncAndClose h w)) = _path h.
Proof. unfold syncAndClose. destruct (_open h); reflexivity. Qed.

Lemma syncAndClose_Inv h w : Inv h -> Inv (fst (syncAndClose h w)).
Proof.
  intros Hi. unfold syncAndClose. destruct (_open h) eqn:Ho; simpl; [|exact Hi].
  split; simpl; [reflexivity | discriminate].
Qed.

Lemma clearLogs_Inv h w : Inv h -> Inv (fst (clearLogs h w)).
Proof.
  intros Hi. unfold clearLogs.
  pose proof (syncAndClose_Inv h w Hi) as Hs.
  destruct (syncAndClose h w) as [h1 w1]. exact Hs.
Qed.

Lemma loop_Inv now h st w : Inv h -> Inv (fst (fst (loop now h st w))).
Proof.
  intros [Hc Ho]. unfold loop. destruct (_open h) eqn:E; simpl.
  - destruct (_ || _); simpl; split; simpl; auto; rewrite E; discriminate.
  - split; simpl; intros; [auto | congruence].
Qed.

Lemma fileInit_Inv flt h w :
  Inv h ->
  Inv (snd (fst (fileInit flt h w)))
  /\ (fst (fst (fileInit flt h w)) = true -> _open (snd (fst (fileInit flt h w))) = true).
Proof.
  intros [Hc Ho]. unfold fileInit.
  destruct (negb (_open h) || (_fd h =? -1)) eqn:Hg.
  - destruct (sys_open _ _ _ _) as [fd w1]. simpl.
    destruct (fd =? -1) eqn:Hfd; simpl.
    + split; [|discriminate]. split; simpl; [|discriminate].
      intros _. destruct (_open h) eqn:E; [|auto].
      simpl in Hg. specialize (Ho eq_refl). lia.
    + split; [|reflexivity]. split; simpl; [discriminate|]. intros _. lia.
  - simpl. split; [split; assumption|]. intros _.
    apply orb_false_iff in Hg. destruct Hg as [Hg _].
    by apply negb_false_iff in Hg.
Qed.

Lemma writeToFile_Inv flt message h w :
  Inv h -> _open h = true -> Inv (fst (writeToFile flt message h w)).
Proof.
  intros [Hc Ho] E. unfold writeToFile.
  destruct (sys_write _ _ _ _) as [r w1]. destruct (r =? -1); simpl.
  - split; assumption.
  - split; simpl; [rewrite E; discriminate | exact Ho].
Qed.

Lemma logMessage_Inv flt msg level category attr h w :
  Inv h -> Inv (fst (logMessage flt msg level category attr h w)).
Proof.
  intros Hi. unfold logMessage. destruct (_enabled h); simpl; [|exact Hi].
  destruct (fileInit_Inv flt h w Hi) as [Hi1 Hopen].
  destruct (fileInit flt h w) as [[ok h1] w1]. simpl in *.
  destruct ok; simpl; [|exact Hi1].
  apply writeToFile_Inv; auto.
Qed.

Lemma configureFsync_Inv a b h : Inv h -> Inv (configureFsync a b h).
Proof. intros Hi. exact Hi. Qed.

Lemma enable_Inv b h : Inv h -> Inv (enable b h).
Proof. intros Hi. exact Hi. Qed.

Lemma step_Inv c s s' : Inv (obj s) -> step c s = Some s' -> Inv (obj s').
Proof.
  intros Hi Hs. destruct c; simpl in Hs.
  - pose proof (logMessage_Inv flt msg level category attr _ (world s) Hi) as Hl.
    destruct (logMessage _ _ _ _ _ _ _) as [h w]. by inversion Hs; subst.
  - pose proof (loop_Inv now _ (statics s) (world s) Hi) as Hl.
    destruct (loop _ _ _ _) as [[h st] w]. by inversion Hs; subst.
  - pose proof (clearLogs_Inv _ (world s) Hi) as Hl.
    destruct (clearLogs _ _) as [h w]. by inversion Hs; subst.
  - inversion Hs; subst. simpl. by apply configureFsync_Inv.
  - inversion Hs; subst. simpl. by apply enable_Inv.
  - destruct (dump _ _ _ _ _ _ _ _) as [[[st sink] w]|]; [|discriminate].
    by inversion Hs; subst.
  - pose proof (syncAndClose_Inv _ (world s) Hi) as Hl. unfold destroy in Hs.
    destruct (syncAndClose _ _) as [h w]. by inversion Hs; subst.
Qed.

Lemma run_Inv cs : forall s s', Inv (obj s) -> run cs s = Some s' -> Inv (obj s').
Proof.
  induction cs as [|c cs IH]; intros s s' Hi Hr; simpl in Hr.
  - by inversion Hr; subst.
  - destruct (step c s) as [s1|] eqn:Hs; [|discriminate].
    eapply IH; [|exact Hr]. eapply step_Inv; eassumption.
Qed.

(** C10. In every state reached from the constructor by any sequence of
    [logMessage], [loop], [clearLogs], [configureFsync], [enable], [dump]
    and destructor calls, a handler whose file is not open has no pending
    bytes, and a handler whose file is open holds a descriptor other
    than -1. *)
Theorem C10_writer_state_invariant :
  forall filename enable_now w0 calls s,
    run calls (boot filename enable_now w0) = Some s ->
    (_open (obj s) = false -> _bytes_queued (obj s) = 0)
    /\ (_open (obj s) = true -> _fd (obj s) <> -1).
Proof.
  intros filename enable_now w0 calls s Hr.
  apply (run_Inv calls (boot filename enable_now w0) s); [|exact Hr].
  apply construct_Inv.
Qed.

(** ** [clearLogs] and [getLogSize] *)

Lemma sys_fsync_fs fd w : fs (snd (sys_fsync fd w)) = fs w.
Proof. unfold sys_fsync. destruct (fds w !! fd); reflexivity. Qed.

Lemma sys_fsync_fds fd w : fds (snd (sys_fsync fd w)) = fds w.
Proof. unfold sys_fsync. destruct (fds w !! fd); reflexivity. Qed.

Lemma sys_close_fs fd w : fs (snd (sys_close fd w)) = fs w.
Proof. unfold sys_close. destruct (fds w !! fd); reflexivity. Qed.

Lemma sys_close_fds fd w : fds (snd (sys_close fd w)) = delete fd (fds w).
Proof.
  unfold sys_close. destruct (fds w !! fd) eqn:E; cbn [snd fds emit with_fds].
  - reflexivity.
  - symmetry. by apply delete_id.
Qed.

Lemma syncAndClose_fs h w : fs (snd (syncAndClose h w)) = fs w.
Proof.
  unfold syncAndClose. destruct (_open h); [|reflexivity].
  cbn [snd]. by rewrite TRACE_PRINT_fs, sys_close_fs, sys_fsync_fs.
Qed.

Lemma sys_unlink_lookup path w :
  fs w !! path <> Some Dir -> fs (snd (sys_unlink path w)) !! path = None.
Proof.
  intros Hd. unfold sys_unlink.
  destruct (fs w !! path) as [[|c]|] eqn:E; cbn [snd fs emit with_fs].
  - congruence.
  - apply lookup_delete_eq.
  - exact E.
Qed.

Lemma clearLogs_removes_file h w :
  fs w !! _path h <> Some Dir ->
  _open (fst (clearLogs h w)) = false
  /\ _path (fst (clearLogs h w)) = _path h
  /\ fs (snd (clearLogs h w)) !! _path h = None.
Proof.
  intros Hd. unfold clearLogs.
  pose proof (syncAndClose_closed h w) as Hc.
  pose proof (syncAndClose_path h w) as Hp.
  pose proof (syncAndClose_fs h w) as Hf.
  destruct (syncAndClose h w) as [h1 w1]. cbn [fst snd] in *.
  split; [exact Hc|]. split; [exact Hp|].
  rewrite TRACE_PRINT_fs. unfold getPath. rewrite Hp.
  apply sys_unlink_lookup. by rewrite Hf.
Qed.

Lemma getLogSize_missing garbage h w :
  _open h = false -> fs w !! _path h = None -> getLogSize garbage h w = garbage.
Proof.
  intros Ho Hn. unfold getLogSize, sys_stat. rewrite Ho, Hn. reflexivity.
Qed.

(** C5 (code at the failing input). After [clearLogs] the handler is
    closed and no file exists at its path; [getLogSize] then returns
    whatever the uninitialised [statbuf.st_size] held on entry, because
    the failing [stat] fills nothing in and its result is not looked
    at. *)
Theorem C5_getLogSize_after_clearLogs :
  forall garbage h w,
    fs w !! _path h <> Some Dir ->
    let '(h', w') := clearLogs h w in
    _open h' = false /\ fs w' !! _path h' = None
    /\ getLogSize garbage h' w' = garbage.
Proof.
  intros garbage h w Hd.
  destruct (clearLogs_removes_file h w Hd) as (Ho & Hp & Hn).
  destruct (clearLogs h w) as [h' w']. cbn [fst snd] in *.
  rewrite Hp. repeat split; try assumption.
  apply getLogSize_missing; [assumption | by rewrite Hp].
Qed.

(** ** [dump] on a missing file *)

Lemma sys_open_rdonly_missing fault path w :
  fs w !! path = None ->
  sys_open fault path O_RDONLY w = (-1, emit (EOpen path O_RDONLY (-1)) w).
Proof.
  intros Hn. unfold sys_open. rewrite Hn. destruct fault; reflexivity.
Qed.

Lemma dump_loop_bad_fd fuel :
  forall buf st sink w,
    fds w !! (-1) = None ->
    exists st' w',
      dump_loop fuel (-1) buf st sink w
      = Running (st', sink ++ concat (replicate fuel (c_string buf)), w')
      /\ f_cursor st' = f_cursor st - Z.of_nat fuel
      /\ count_events is_serial (trace w') = count_events is_serial (trace w)
      /\ fs w' = fs w.
Proof.
  induction fuel as [|fuel IH]; intros buf st sink w Hfd.
  - exists st, w. simpl. rewrite app_nil_r. repeat split; lia.
  - cbn [dump_loop]. unfold sys_read. rewrite Hfd.
    change (buf_fill [] buf) with buf.
    change (buf_store (-1) NUL buf) with buf.
    cbn [Z.eqb].
    destruct (IH buf (set_f_cursor (f_cursor st + -1) st) (sink ++ c_string buf)
                (emit EProcess (emit (ERead (-1) (-1)) w)) Hfd)
      as (st' & w' & Hrun & Hcur & Hcnt & Hfs).
    exists st', w'. rewrite Hrun. repeat split.
    + cbn [replicate concat]. by rewrite app_assoc.
    + rewrite Hcur. cbn [f_cursor set_f_cursor]. lia.
    + rewrite Hcnt. reflexivity.
    + rewrite Hfs. reflexivity.
Qed.

(** C4 (code at the failing input). When no file exists at the handler's
    path, [open] returns -1, the guard [!dump_fd] does not fire, and
    [dump] enters its read loop on descriptor -1: whatever fuel it is
    given it is still running, every iteration has sent the stale
    contents of the stack buffer to the sink and moved the cursor back by
    one, and the diagnostic channel has received nothing. *)
Theorem C4_dump_missing_file :
  forall flt stack fuel read_from_beginning h st sink w,
    fs w !! _path h = None ->
    fds w !! (-1) = None ->
    exists st' w',
      dump flt stack fuel read_from_beginning h st sink w
      = Running (st', sink ++ concat (replicate fuel (c_string (stack_buffer stack))), w')
      /\ f_cursor st' = (if read_from_beginning then 0 else f_cursor st) - Z.of_nat fuel
      /\ count_events is_serial (trace w') = count_events is_serial (trace w).
Proof.
  intros flt stack fuel rfb h st sink w Hn Hfd. unfold dump.
  rewrite sys_open_rdonly_missing by assumption. cbn [Z.eqb].
  set (w0 := emit (EOpen (_path h) O_RDONLY (-1)) w).
  assert (Hfd0 : fds w0 !! (-1) = None) by exact Hfd.
  destruct rfb.
  - destruct (dump_loop_bad_fd fuel (stack_buffer stack) (set_f_cursor 0 st) sink w0 Hfd0)
      as (st' & w' & Hrun & Hcur & Hcnt & _).
    exists st', w'. rewrite Hrun. repeat split; assumption.
  - unfold sys_lseek. rewrite Hfd0. cbn [snd].
    destruct (dump_loop_bad_fd fuel (stack_buffer stack) st sink
                (emit (ELseek (-1) (f_cursor st)) w0) Hfd0)
      as (st' & w' & Hrun & Hcur & Hcnt & _).
    exists st', w'. rewrite Hrun. repeat split; assumption.
Qed.

(** ** Descriptor allocation *)

Lemma alloc_fd_spec (m : gmap Z fdesc) fd :
  alloc_fd m = Some fd -> MINIMAL_FD <= fd /\ m !! fd = None.
Proof.
  unfold alloc_fd. intros Hf. apply List.find_some in Hf. destruct Hf as [Hin Hfree].
  apply list_elem_of_In, elem_of_seqZ in Hin. split; [lia|].
  unfold fd_free in Hfree. by destruct (m !! fd).
Qed.

(** There is always a free descriptor among [size m + 1] candidates. *)
Lemma alloc_fd_total (m : gmap Z fdesc) : exists fd, alloc_fd m = Some fd.
Proof.
  unfold alloc_fd.
  destruct (List.find _ _) as [fd|] eqn:Hf; [by exists fd|]. exfalso.
  set (l := seqZ MINIMAL_FD (Z.of_nat (size m) + 1)) in *.
  assert (Hsub : (list_to_set l : gset Z) ⊆ dom m).
  { intros x Hx. apply elem_of_list_to_set in Hx.
    apply list_elem_of_In in Hx.
    pose proof (List.find_none _ _ Hf x Hx) as Hb.
    apply elem_of_dom. unfold fd_free in Hb.
    destruct (m !! x); [eauto | discriminate]. }
  apply subseteq_size in Hsub.
  rewrite size_list_to_set in Hsub by apply NoDup_seqZ.
  rewrite size_dom in Hsub. unfold l in Hsub. rewrite length_seqZ in Hsub. lia.
Qed.

(** ** [dump] on an existing file *)

Lemma c_string_terminated chunk rest :
  nul_free chunk -> c_string (chunk ++ NUL :: rest) = chunk.
Proof.
  induction 1 as [|a chunk Ha _ IH]; [reflexivity|].
  cbn [app c_string]. unfold ascii_eqb.
  destruct (Ascii.eqb a NUL) eqn:E.
  - apply Ascii.eqb_eq in E. contradiction.
  - by rewrite IH.
Qed.

Lemma length_buf_fill data buf :
  (length data <= length buf)%nat -> length (buf_fill data buf) = length buf.
Proof. intros Hl. unfold buf_fill. rewrite length_app, length_drop. lia. Qed.

Lemma length_buf_store i c buf : length (buf_store i c buf) = length buf.
Proof.
  unfold buf_store. destruct (_ && _); [apply length_insert | reflexivity].
Qed.

Lemma length_stack_buffer stack : length (stack_buffer stack) = BUF_SIZE.
Proof.
  unfold stack_buffer. rewrite length_take, length_app, length_replicate. lia.
Qed.

(** After a read of [chunk] and the store of the terminator, [printf]
    prints exactly [chunk]. *)
Lemma c_string_after_read chunk buf :
  nul_free chunk -> (length chunk < length buf)%nat ->
  c_string (buf_store (Z.of_nat (length chunk)) NUL (buf_fill chunk buf)) = chunk.
Proof.
  intros Hn Hl. unfold buf_store.
  rewrite length_buf_fill by lia.
  replace ((0 <=? Z.of_nat (length chunk))
           && (Z.of_nat (length chunk) <? Z.of_nat (length buf))) with true
    by (symmetry; apply andb_true_iff; split; lia).
  rewrite Nat2Z.id. unfold buf_fill.
  rewrite insert_app_r_alt by lia. rewrite Nat.sub_diag.
  destruct (drop (length chunk) buf) as [|y rest] eqn:E.
  - apply (f_equal length) in E. rewrite length_drop in E. simpl in E. lia.
  - cbn. by apply c_string_terminated.
Qed.

Lemma sys_read_ok fd count w path off c :
  fds w !! fd = Some {| fd_path := path; fd_off := off; fd_flags := O_RDONLY |} ->
  fs w !! path = Some (File c) ->
  sys_read fd count w
  = let chunk := take count (drop off c) in
    (Z.of_nat (length chunk), chunk,
     emit (ERead fd (Z.of_nat (length chunk)))
       (with_fds (<[fd := {| fd_path := path; fd_off := (off + length chunk)%nat;
                             fd_flags := O_RDONLY |}]> (fds w)) w)).
Proof. intros Hfd Hfs. unfold sys_read. rewrite Hfd. cbn. rewrite Hfs. reflexivity. Qed.

Lemma take_nil_inv {A} (n : nat) (l : list A) :
  (0 < n)%nat -> take n l = [] -> l = [].
Proof. destruct n; [lia|]. destruct l; [reflexivity | discriminate]. Qed.

Lemma take_then_rest {A} (k : nat) :
  forall l : list A, take k l ++ drop (length (take k l)) l = l.
Proof.
  induction k as [|k IH]; intros [|x l]; try reflexivity.
  cbn. f_equal. apply IH.
Qed.

Lemma take_drop_chunk {A} (k off : nat) (c : list A) :
  take k (drop off c) ++ drop (off + length (take k (drop off c))) c = drop off c.
Proof. rewrite <- drop_drop. apply take_then_rest. Qed.

Lemma nul_free_take n c : nul_free c -> nul_free (take n c).
Proof. apply Forall_take. Qed.

Lemma nul_free_drop n c : nul_free c -> nul_free (drop n c).
Proof. apply Forall_drop. Qed.

Lemma dump_loop_reads fuel :
  forall fd path off c buf st sink w,
    fds w !! fd = Some {| fd_path := path; fd_off := off; fd_flags := O_RDONLY |} ->
    fs w !! path = Some (File c) ->
    nul_free c -> length buf = BUF_SIZE ->
    (length c - off < fuel)%nat ->
    exists st' w',
      dump_loop fuel fd buf st sink w = Returned (st', sink ++ drop off c, w')
      /\ f_cursor st' = f_cursor st + Z.of_nat (length c - off)
      /\ last_ran st' = last_ran st
      /\ fs w' = fs w
      /\ (forall k, k <> fd -> fds w' !! k = fds w !! k).
Proof.
  induction fuel as [|fuel IH]; intros fd path off c buf st sink w Hfd Hfs Hn Hb Hfuel;
    [lia|].
  cbn [dump_loop]. rewrite (sys_read_ok _ _ _ _ _ _ Hfd Hfs). cbv beta iota zeta.
  set (chunk := take (BUF_SIZE - 1) (drop off c)).
  assert (Hlen : (length chunk <= BUF_SIZE - 1)%nat).
  { unfold chunk. rewrite length_take. lia. }
  assert (Hchunk : nul_free chunk) by (by apply nul_free_take, nul_free_drop).
  rewrite c_string_after_read by (assumption || (rewrite Hb; unfold BUF_SIZE in *; lia)).
  destruct (Z.of_nat (length chunk) =? 0) eqn:Hz.
  - assert (Hnil : chunk = []) by (apply nil_length_inv; lia).
    assert (Hrest : drop off c = []).
    { apply (take_nil_inv (BUF_SIZE - 1)); [unfold BUF_SIZE; lia | exact Hnil]. }
    rewrite Hrest, Hnil.
    eexists _, _. split; [reflexivity|].
    cbn [f_cursor set_f_cursor last_ran length fs fds emit with_fds].
    apply (f_equal length) in Hrest. rewrite length_drop in Hrest.
    change (length (@nil ascii)) with 0%nat in Hrest.
    repeat split; try lia.
    intros k Hk. by rewrite lookup_insert_ne.
  - assert (Hpos : (0 < length chunk)%nat) by lia.
    assert (Hle : (length chunk <= length c - off)%nat).
    { unfold chunk. rewrite length_take, length_drop. lia. }
    set (w1 := emit EProcess _).
    destruct (IH fd path (off + length chunk)%nat c
                (buf_store (Z.of_nat (length chunk)) NUL (buf_fill chunk buf))
                (set_f_cursor (f_cursor st + Z.of_nat (length chunk)) st)
                (sink ++ chunk) w1)
      as (st' & w' & Hrun & Hcur & Hlast & Hfs' & Hfds').
    + cbn [fds emit with_fds]. apply lookup_insert_eq.
    + exact Hfs.
    + exact Hn.
    + rewrite length_buf_store, length_buf_fill; [exact Hb|].
      rewrite Hb. unfold BUF_SIZE in *. lia.
    + lia.
    + exists st', w'. rewrite Hrun. split; [|split; [|split; [|split]]].
      * f_equal. f_equal. f_equal. rewrite <- app_assoc. f_equal.
        apply take_drop_chunk.
      * rewrite Hcur. cbn [f_cursor set_f_cursor]. lia.
      * rewrite Hlast. reflexivity.
      * rewrite Hfs'. reflexivity.
      * intros k Hk. rewrite Hfds' by assumption.
        unfold w1. cbn [fds emit with_fds]. by rewrite lookup_insert_ne.
Qed.

Lemma sys_open_rdonly_ok path w c :
  fs w !! path = Some (File c) ->
  exists fd,
    MINIMAL_FD <= fd /\ fds w !! fd = None
    /\ sys_open false path O_RDONLY w
       = (fd, emit (EOpen path O_RDONLY fd)
                (with_fds (<[fd := {| fd_path := path; fd_off := 0;
                                      fd_flags := O_RDONLY |}]> (fds w))
                   (with_fs (fs w) w))).
Proof.
  intros Hfs. destruct (alloc_fd_total (fds w)) as [fd Ha].
  destruct (alloc_fd_spec _ _ Ha) as [Hmin Hfree].
  exists fd. split; [assumption|]. split; [assumption|].
  unfold sys_open, open_new. rewrite Hfs, Ha. reflexivity.
Qed.

(** [dump] on an existing text file: it returns, having sent the sink the
    file from the starting offset on, with the cursor at the end of the
    file and the descriptor table as it found it. *)
Lemma dump_reads flt stack fuel read_from_beginning h st sink w c :
  open_fails flt = false ->
  fs w !! _path h = Some (File c) ->
  nul_free c ->
  (read_from_beginning = false -> 0 <= f_cursor st) ->
  let off := if read_from_beginning then 0%nat else Z.to_nat (f_cursor st) in
  (length c - off < fuel)%nat ->
  exists st' w',
    dump flt stack fuel read_from_beginning h st sink w
    = Returned (st', sink ++ drop off c, w')
    /\ f_cursor st' = Z.of_nat off + Z.of_nat (length c - off)
    /\ last_ran st' = last_ran st
    /\ fs w' = fs w /\ fds w' = fds w.
Proof.
  intros Hflt Hfs Hn Hcur off Hfuel. unfold dump. rewrite Hflt.
  destruct (sys_open_rdonly_ok _ _ _ Hfs) as (fd & Hmin & Hfree & Hopen).
  rewrite Hopen. unfold MINIMAL_FD in Hmin.
  replace (fd =? 0) with false by (symmetry; apply Z.eqb_neq; lia).
  set (w1 := emit (EOpen _ _ _) _).
  assert (Hfs1 : fs w1 !! _path h = Some (File c)) by exact Hfs.
  assert (Hfd1 : fds w1 !! fd
                 = Some {| fd_path := _path h; fd_off := 0; fd_flags := O_RDONLY |})
    by apply lookup_insert_eq.
  assert (Hframe : forall (w2 : World),
             fs w2 = fs w1 ->
             (forall k, k <> fd -> fds w2 !! k = fds w1 !! k) ->
             fs (snd (sys_close fd w2)) = fs w /\ fds (snd (sys_close fd w2)) = fds w).
  { intros w2 Hfs2 Hfds2. rewrite sys_close_fs, sys_close_fds. split; [by rewrite Hfs2|].
    apply map_eq. intros k. destruct (decide (k = fd)) as [->|Hk].
    - by rewrite lookup_delete_eq, Hfree.
    - rewrite lookup_delete_ne by congruence. rewrite Hfds2 by assumption.
      unfold w1. cbn [fds emit with_fds with_fs]. by rewrite lookup_insert_ne. }
  destruct read_from_beginning.
  - destruct (dump_loop_reads fuel fd (_path h) 0%nat c (stack_buffer stack)
                (set_f_cursor 0 st) sink w1 Hfd1 Hfs1 Hn (length_stack_buffer _) Hfuel)
      as (st' & w' & Hrun & Hc & Hl & Hfs' & Hfds').
    rewrite Hrun. eexists _, _. split; [reflexivity|].
    destruct (Hframe w' Hfs' Hfds') as [Hf1 Hf2].
    repeat split; try assumption.
  - specialize (Hcur eq_refl). unfold sys_lseek. rewrite Hfd1.
    replace (0 <=? f_cursor st) with true by (symmetry; apply Z.leb_le; lia).
    cbn [snd fd_path fd_flags].
    set (w2 := emit (ELseek _ _) _).
    assert (Hfd2 : fds w2 !! fd
                   = Some {| fd_path := _path h; fd_off := Z.to_nat (f_cursor st);
                             fd_flags := O_RDONLY |})
      by apply lookup_insert_eq.
    destruct (dump_loop_reads fuel fd (_path h) (Z.to_nat (f_cursor st)) c
                (stack_buffer stack) st sink w2 Hfd2 Hfs1 Hn (length_stack_buffer _) Hfuel)
      as (st' & w' & Hrun & Hc & Hl & Hfs' & Hfds').
    rewrite Hrun. eexists _, _. split; [reflexivity|].
    assert (Hfds2 : forall k, k <> fd -> fds w' !! k = fds w1 !! k).
    { intros k Hk. rewrite Hfds' by assumption. unfold w2.
      cbn [fds emit with_fds]. by rewrite lookup_insert_ne. }
    destruct (Hframe w' Hfs' Hfds2) as [Hf1 Hf2].
    repeat split; try assumption. rewrite Hc. subst off. lia.
Qed.

(** C6 (amended). For a log file holding the text [c1] (no NUL byte),
    growing by the text [c2], [dump] from the beginning
    returns with exactly [c1] sent to the sink and the cursor at its end;
    once the file has grown to [c1 ++ c2], a [dump] that does not start
    from the beginning returns with exactly [c2] sent, not [c1 ++ c2],
    and the cursor at the new end. *)
Theorem C6_dump_resumes_at_cursor :
  forall flt1 flt2 stack1 stack2 fuel1 fuel2 h st sink w1 w2 c1 c2,
    open_fails flt1 = false -> open_fails flt2 = false ->
    nul_free c1 -> nul_free c2 ->
    fs w1 !! _path h = Some (File c1) ->
    fs w2 !! _path h = Some (File (c1 ++ c2)) ->
    (length c1 < fuel1)%nat -> (length c2 < fuel2)%nat ->
    exists st1 w1' st2 w2',
      dump flt1 stack1 fuel1 true h st sink w1 = Returned (st1, sink ++ c1, w1')
      /\ f_cursor st1 = Z.of_nat (length c1)
      /\ dump flt2 stack2 fuel2 false h st1 (sink ++ c1) w2
         = Returned (st2, (sink ++ c1) ++ c2, w2')
      /\ f_cursor st2 = Z.of_nat (length c1 + length c2).
Proof.
  intros flt1 flt2 stack1 stack2 fuel1 fuel2 h st sink w1 w2 c1 c2
    Hf1 Hf2 Hn1 Hn2 Hfs1 Hfs2 Hfuel1 Hfuel2.
  destruct (dump_reads flt1 stack1 fuel1 true h st sink w1 c1 Hf1 Hfs1 Hn1)
    as (st1 & w1' & Hrun1 & Hc1 & _); [discriminate | cbn; lia |].
  cbn [drop] in Hrun1.
  assert (Hcur1 : f_cursor st1 = Z.of_nat (length c1)) by lia.
  destruct (dump_reads flt2 stack2 fuel2 false h st1 (sink ++ c1) w2 (c1 ++ c2) Hf2 Hfs2)
    as (st2 & w2' & Hrun2 & Hc2 & _).
  - by apply Forall_app.
  - intros _. lia.
  - rewrite Hcur1, Nat2Z.id, length_app. lia.
  - rewrite Hcur1, Nat2Z.id in Hrun2, Hc2.
    rewrite drop_app_length in Hrun2. rewrite length_app in Hc2.
    exists st1, w1', st2, w2'. repeat split; try assumption. lia.
Qed.

(** ** Opening, truncating, appending *)

Lemma sys_unlink_fds path w : fds (snd (sys_unlink path w)) = fds w.
Proof. unfold sys_unlink. destruct (fs w !! path) as [[|c]|]; reflexivity. Qed.

Lemma sys_unlink_count path w :
  count_events is_open_trunc (trace (snd (sys_unlink path w)))
  = count_events is_open_trunc (trace w).
Proof. unfold sys_unlink. destruct (fs w !! path) as [[|c]|]; reflexivity. Qed.

Lemma sys_mkdir_fds fault path w : fds (snd (sys_mkdir fault path w)) = fds w.
Proof.
  unfold sys_mkdir. destruct fault; [reflexivity|].
  destruct (fs w !! path); [reflexivity|]. destruct (parent_ok _ _); reflexivity.
Qed.

Lemma sys_mkdir_count fault path w :
  count_events is_open_trunc (trace (snd (sys_mkdir fault path w)))
  = count_events is_open_trunc (trace w).
Proof.
  unfold sys_mkdir. destruct fault; [reflexivity|].
  destruct (fs w !! path); [reflexivity|]. destruct (parent_ok _ _); reflexivity.
Qed.

Lemma createDirIfNecessary_fds flt path w :
  fds (snd (createDirIfNecessary flt path w)) = fds w.
Proof.
  unfold createDirIfNecessary.
  destruct (sys_stat _ _ _) as [[|c]| |]; cbn [snd].
  - apply DEBUG_PRINT_fds.
  - pose proof (sys_mkdir_fds (mkdir_fails flt) path
                  (snd (sys_unlink path (DEBUG_PRINT DebugFileInTheWay w)))) as Hm.
    destruct (sys_mkdir _ _ _) as [r w1]. cbn [snd] in Hm.
    destruct (r =? 0); cbn [snd]; rewrite DEBUG_PRINT_fds, Hm, sys_unlink_fds;
      apply DEBUG_PRINT_fds.
  - pose proof (sys_mkdir_fds (mkdir_fails flt) path w) as Hm.
    destruct (sys_mkdir _ _ _) as [r w1]. cbn [snd] in Hm.
    destruct (r =? 0); cbn [snd]; by rewrite DEBUG_PRINT_fds.
  - apply DEBUG_PRINT_fds.
Qed.

Lemma createDirIfNecessary_count flt path w :
  count_events is_open_trunc (trace (snd (createDirIfNecessary flt path w)))
  = count_events is_open_trunc (trace w).
Proof.
  unfold createDirIfNecessary.
  destruct (sys_stat _ _ _) as [[|c]| |]; cbn [snd].
  - by apply DEBUG_PRINT_count.
  - pose proof (sys_mkdir_count (mkdir_fails flt) path
                  (snd (sys_unlink path (DEBUG_PRINT DebugFileInTheWay w)))) as Hm.
    destruct (sys_mkdir _ _ _) as [r w1]. cbn [snd] in Hm.
    destruct (r =? 0); cbn [snd];
      rewrite DEBUG_PRINT_count, Hm, sys_unlink_count by reflexivity;
      by apply DEBUG_PRINT_count.
  - pose proof (sys_mkdir_count (mkdir_fails flt) path w) as Hm.
    destruct (sys_mkdir _ _ _) as [r w1]. cbn [snd] in Hm.
    destruct (r =? 0); cbn [snd]; by rewrite DEBUG_PRINT_count.
  - by apply DEBUG_PRINT_count.
Qed.

(** What [open] can return: -1 with nothing changed, or a fresh
    descriptor at offset 0 — on a file made empty when the flags say
    [O_TRUNC]. *)
Lemma sys_open_result fault path flags w :
  let '(fd, w') := sys_open fault path flags w in
  trace w' = EOpen path flags fd :: trace w
  /\ ((fd = -1 /\ fs w' = fs w /\ fds w' = fds w)
      \/ (MINIMAL_FD <= fd /\ fds w !! fd = None
          /\ fds w' = <[fd := {| fd_path := path; fd_off := 0; fd_flags := flags |}]> (fds w)
          /\ fs w' = match flags with
                     | O_RDONLY => fs w
                     | O_WRONLY_CREAT_TRUNC => <[path := File []]> (fs w)
                     end)).
Proof.
  assert (Hfail : let '(fd, w') := open_failed path flags w in
                  trace w' = EOpen path flags fd :: trace w
                  /\ ((fd = -1 /\ fs w' = fs w /\ fds w' = fds w)
                      \/ (MINIMAL_FD <= fd /\ fds w !! fd = None
                          /\ fds w' = <[fd := {| fd_path := path; fd_off := 0;
                                                 fd_flags := flags |}]> (fds w)
                          /\ fs w' = match flags with
                                     | O_RDONLY => fs w
                                     | O_WRONLY_CREAT_TRUNC => <[path := File []]> (fs w)
                                     end)))
    by (cbn; auto).
  assert (Hnew : forall m,
             m = match flags with
                 | O_RDONLY => fs w
                 | O_WRONLY_CREAT_TRUNC => <[path := File []]> (fs w)
                 end ->
             let '(fd, w') := open_new path flags m w in
             trace w' = EOpen path flags fd :: trace w
             /\ ((fd = -1 /\ fs w' = fs w /\ fds w' = fds w)
                 \/ (MINIMAL_FD <= fd /\ fds w !! fd = None
                     /\ fds w' = <[fd := {| fd_path := path; fd_off := 0;
                                            fd_flags := flags |}]> (fds w)
                     /\ fs w' = match flags with
                                | O_RDONLY => fs w
                                | O_WRONLY_CREAT_TRUNC => <[path := File []]> (fs w)
                                end))).
  { intros m ->. unfold open_new. destruct (alloc_fd (fds w)) as [fd|] eqn:Ha.
    - destruct (alloc_fd_spec _ _ Ha) as [Hmin Hfree].
      split; [reflexivity|]. right. repeat split; assumption.
    - exact Hfail. }
  unfold sys_open. destruct fault; [exact Hfail|].
  destruct flags, (fs w !! path) as [[|c]|]; try exact Hfail.
  - by apply Hnew.
  - destruct (parent_ok _ _); [by apply Hnew | exact Hfail].
  - destruct (parent_ok _ _); [by apply Hnew | exact Hfail].
Qed.

Lemma write_at_end (c data : list ascii) : write_at (length c) data c = c ++ data.
Proof.
  unfold write_at. rewrite take_ge by lia. rewrite Nat.sub_diag.
  rewrite drop_ge by lia. cbn [replicate app]. by rewrite app_nil_r.
Qed.

Lemma Attached_frame h h' w w' c :
  _fd h' = _fd h -> _path h' = _path h -> fds w' = fds w -> fs w' = fs w ->
  Attached h w c -> Attached h' w' c.
Proof. unfold Attached. intros -> -> -> ->. auto. Qed.

(** A write through an attached handle appends, or on failure changes
    nothing; it never opens anything. *)
Lemma writeToFile_attached flt message h w c :
  Attached h w c ->
  let '(h', w') := writeToFile flt message h w in
  _fd h' = _fd h /\ _path h' = _path h /\ _open h' = _open h
  /\ _enabled h' = _enabled h
  /\ count_events is_open_trunc (trace w') = count_events is_open_trunc (trace w)
  /\ Attached h' w' (if write_fails flt then c else c ++ list_ascii_of_string message).
Proof.
  intros [Hfd Hfs]. unfold writeToFile, sys_write.
  destruct (write_fails flt).
  - cbn. repeat split; try reflexivity.
    + by rewrite DEBUG_PRINT_count.
    + by rewrite DEBUG_PRINT_fds.
    + by rewrite DEBUG_PRINT_fs.
  - rewrite Hfd. cbn [fd_flags fd_path fd_off]. rewrite Hfs. cbv beta iota zeta.
    replace (Z.of_nat (length (list_ascii_of_string message)) =? -1) with false
      by (symmetry; apply Z.eqb_neq; lia).
    cbn [_fd _path _open _enabled set_bytes_queued].
    repeat split; try reflexivity.
    + by rewrite TRACE_PRINT_count.
    + rewrite TRACE_PRINT_fds. cbn [fds emit with_fds with_fs _fd set_bytes_queued].
      rewrite lookup_insert_eq, length_app. reflexivity.
    + rewrite TRACE_PRINT_fs. cbn [fs emit with_fds with_fs _path set_bytes_queued].
      rewrite lookup_insert_eq, write_at_end. reflexivity.
Qed.

(** [fileInit] on a handler that is not open: a failed [open] leaves it
    closed, a successful one leaves it attached to an empty file. *)
Lemma fileInit_closed flt h w :
  _open h = false ->
  let '(ok, h', w') := fileInit flt h w in
  _path h' = _path h /\ _enabled h' = _enabled h /\ _open h' = ok
  /\ count_events is_open_trunc (trace w') = S (count_events is_open_trunc (trace w))
  /\ (ok = true -> Attached h' w' []).
Proof.
  intros Ho. unfold fileInit. rewrite Ho. cbn [negb orb].
  set (w0 := snd (createDirIfNecessary flt "/log" w)).
  assert (Hc0 : count_events is_open_trunc (trace w0)
                = count_events is_open_trunc (trace w))
    by apply createDirIfNecessary_count.
  pose proof (sys_open_result (open_fails flt) (_path h) O_WRONLY_CREAT_TRUNC w0) as Hr.
  destruct (sys_open _ _ _ _) as [fd w1]. destruct Hr as [Htr Hr].
  assert (Hc1 : count_events is_open_trunc (trace w1)
                = S (count_events is_open_trunc (trace w))).
  { rewrite Htr. unfold count_events in *. cbn. by rewrite Hc0. }
  cbn [_fd set_fd].
  destruct Hr as [(-> & _ & _)|(Hmin & Hfree & Hfds & Hfs)].
  - cbn [Z.eqb Pos.eqb _path _enabled _open set_open set_fd].
    repeat split; try reflexivity; try discriminate.
    by rewrite DEBUG_PRINT_count.
  - unfold MINIMAL_FD in Hmin.
    replace (fd =? -1) with false by (symmetry; apply Z.eqb_neq; lia).
    cbn [_path _enabled _open set_open set_fd]. repeat split; try reflexivity.
    + by rewrite TRACE_PRINT_count.
    + rewrite TRACE_PRINT_fds. cbn [_fd _path set_open set_fd].
      rewrite Hfds. apply lookup_insert_eq.
    + rewrite TRACE_PRINT_fs. cbn [_fd _path set_open set_fd].
      rewrite Hfs. apply lookup_insert_eq.
Qed.

(** [fileInit] on an open handler is the short-circuit. *)
Lemma fileInit_open flt h w :
  _open h = true -> _fd h <> -1 -> fileInit flt h w = (true, h, w).
Proof.
  intros Ho Hfd. unfold fileInit. rewrite Ho.
  replace (_fd h =? -1) with false by (symmetry; by apply Z.eqb_neq).
  reflexivity.
Qed.

(** What [fileInit] returns on a handler that is not open is decided by
    the result of its [open] call alone. *)
Lemma fileInit_closed_result flt h w :
  _open h = false ->
  let opened := fst (sys_open (open_fails flt) (_path h) O_WRONLY_CREAT_TRUNC
                       (snd (createDirIfNecessary flt "/log" w))) in
  fst (fst (fileInit flt h w)) = negb (opened =? -1)
  /\ _fd (snd (fst (fileInit flt h w))) = opened.
Proof.
  intros Ho. unfold fileInit. rewrite Ho. cbn [negb orb].
  destruct (sys_open _ _ _ _) as [fd w1]. cbn [fst _fd set_fd].
  destruct (fd =? -1); by split.
Qed.

(** Any number of records on an open, attached handler: no [open] call,
    the same descriptor, and the file grows by what was written. *)
Lemma logMessages_attached records :
  forall h w c,
    _enabled h = true -> _open h = true -> _fd h <> -1 -> Attached h w c ->
    let '(h', w') := logMessages records h w in
    count_events is_open_trunc (trace w') = count_events is_open_trunc (trace w)
    /\ _open h' = true /\ _fd h' = _fd h
    /\ Attached h' w' (c ++ written records).
Proof.
  induction records as [|[[[[flt msg] level] category] attr] rest IH];
    intros h w c He Ho Hfd Ha; cbn [logMessages written].
  - rewrite app_nil_r. auto.
  - unfold logMessage. rewrite He. cbn [negb].
    rewrite (fileInit_open flt h w Ho Hfd). cbn [negb].
    pose proof (writeToFile_attached flt (render msg level category attr) h w c Ha) as Hw.
    destruct (writeToFile _ _ _ _) as [h1 w1].
    destruct Hw as (Hfd1 & _ & Ho1 & He1 & Hcnt1 & Ha1).
    specialize (IH h1 w1 _ ltac:(congruence) ltac:(congruence) ltac:(congruence) Ha1).
    destruct (logMessages rest h1 w1) as [h' w'].
    destruct IH as (Hcnt & Ho' & Hfd' & Ha').
    split; [congruence|]. split; [exact Ho'|]. split; [congruence|].
    destruct (write_fails flt); [exact Ha'|]. by rewrite <- app_assoc in Ha'.
Qed.

(** C8. For an enabled handler. A [logMessage] that finds the file not
    open makes exactly one [open] call, with truncation; if that call
    succeeds the handler is open on the descriptor it returned and the file
    holds the new record only (or nothing, if the write failed), and if it
    fails the handler stays closed.  A [logMessage] that finds the file open
    makes no [open] call, keeps the descriptor, and the file then holds its
    previous content followed by the new record (or the previous content
    alone, if the write failed); the same holds of any sequence of records.
    So a sequence of records that starts on a closed handler with a
    successful [open] contains that one truncating [open] and no other. *)
Theorem C8_truncate_on_first_open_then_append :
  forall flt msg level category attr h w,
    _enabled h = true ->
    let line := list_ascii_of_string (render msg level category attr) in
    let opened := fst (sys_open (open_fails flt) (_path h) O_WRONLY_CREAT_TRUNC
                         (snd (createDirIfNecessary flt "/log" w))) in
    (let '(h', w') := logMessage flt msg level category attr h w in
     (_open h = false ->
      count_events is_open_trunc (trace w') = S (count_events is_open_trunc (trace w))
      /\ (opened <> -1 ->
          _open h' = true /\ _fd h' = opened
          /\ Attached h' w' (if write_fails flt then [] else line))
      /\ (opened = -1 -> _open h' = false /\ _fd h' = -1)
      /\ (_open h' = true -> Attached h' w' (if write_fails flt then [] else line)))
     /\ (forall c,
           _open h = true -> _fd h <> -1 -> Attached h w c ->
           count_events is_open_trunc (trace w') = count_events is_open_trunc (trace w)
           /\ _open h' = true /\ _fd h' = _fd h
           /\ Attached h' w' (if write_fails flt then c else c ++ line)))
    /\ (forall records c,
          _open h = true -> _fd h <> -1 -> Attached h w c ->
          let '(h', w') := logMessages records h w in
          count_events is_open_trunc (trace w') = count_events is_open_trunc (trace w)
          /\ _open h' = true /\ _fd h' = _fd h
          /\ Attached h' w' (c ++ written records))
    /\ (forall rest,
          _open h = false -> opened <> -1 ->
          let '(h', w') := logMessages ((flt, msg, level, category, attr) :: rest) h w in
          count_events is_open_trunc (trace w') = S (count_events is_open_trunc (trace w))
          /\ _open h' = true /\ _fd h' = opened
          /\ Attached h' w' (written ((flt, msg, level, category, attr) :: rest))).
Proof.
  intros flt msg level category attr h w He line opened.
  assert (Hfirst : _open h = false ->
            let '(h', w') := logMessage flt msg level category attr h w in
            _enabled h' = true
            /\ count_events is_open_trunc (trace w') = S (count_events is_open_trunc (trace w))
            /\ (opened <> -1 ->
                _open h' = true /\ _fd h' = opened
                /\ Attached h' w' (if write_fails flt then [] else line))
            /\ (opened = -1 -> _open h' = false /\ _fd h' = -1)
            /\ (_open h' = true -> Attached h' w' (if write_fails flt then [] else line))).
  { intros Ho. unfold logMessage. rewrite He. cbn [negb].
    pose proof (fileInit_closed flt h w Ho) as Hi.
    destruct (fileInit_closed_result flt h w Ho) as [Hok Hfd]. fold opened in Hok, Hfd.
    destruct (fileInit flt h w) as [[ok h1] w1]. cbn [fst snd] in Hok, Hfd.
    destruct Hi as (Hp & He1 & Ho1 & Hcnt & Ha).
    destruct ok; cbn [negb].
    - assert (Hne : opened <> -1).
      { intros Heq. rewrite Heq in Hok. discriminate. }
      pose proof (writeToFile_attached flt (render msg level category attr) h1 w1 []
                    (Ha eq_refl)) as Hw.
      destruct (writeToFile _ _ _ _) as [h' w'].
      destruct Hw as (Hfd' & _ & Ho' & He' & Hcnt' & Ha').
      split; [congruence|]. split; [congruence|].
      split; [intros _; split; [congruence|]; split; [congruence | exact Ha']|].
      split; [intros Heq; contradiction | intros _; exact Ha'].
    - assert (Heq : opened = -1).
      { destruct (opened =? -1) eqn:E; [by apply Z.eqb_eq | discriminate]. }
      split; [congruence|]. split; [by rewrite TRACE_PRINT_count|].
      split; [intros Hne; contradiction|].
      split; [intros _; split; congruence | intros Hopen; congruence]. }
  split; [|split].
  - assert (Hnext : forall c,
              _open h = true -> _fd h <> -1 -> Attached h w c ->
              let '(h', w') := logMessage flt msg level category attr h w in
              count_events is_open_trunc (trace w') = count_events is_open_trunc (trace w)
              /\ _open h' = true /\ _fd h' = _fd h
              /\ Attached h' w' (if write_fails flt then c else c ++ line)).
    { intros c Ho Hfd Ha.
      pose proof (logMessages_attached [(flt, msg, level, category, attr)] h w c
                    He Ho Hfd Ha) as Hone.
      cbn [logMessages written] in Hone.
      destruct (logMessage flt msg level category attr h w) as [h' w'].
      rewrite app_nil_r in Hone. fold line in Hone.
      destruct (write_fails flt); [by rewrite app_nil_r in Hone | exact Hone]. }
    destruct (logMessage flt msg level category attr h w) as [h' w']. split.
    + intros Ho. specialize (Hfirst Ho). tauto.
    + exact Hnext.
  - intros records c Ho Hfd Ha. by apply logMessages_attached.
  - intros rest Ho Hne. specialize (Hfirst Ho). cbn [logMessages written].
    destruct (logMessage flt msg level category attr h w) as [h1 w1].
    destruct Hfirst as (He1 & Hcnt1 & Hopen & _ & _).
    destruct (Hopen Hne) as (Ho1 & Hfd1 & Ha1).
    pose proof (logMessages_attached rest h1 w1 _ He1 Ho1
                  ltac:(congruence) Ha1) as Hrest.
    destruct (logMessages rest h1 w1) as [h' w'].
    destruct Hrest as (Hcnt & Ho' & Hfd' & Ha').
    split; [congruence|]. split; [exact Ho'|]. split; [congruence|].
    fold line. exact Ha'.
Qed.

(** ** Every reachable open handler is attached to its file *)

Lemma boot_Good filename enable_now w : Good (boot filename enable_now w).
Proof.
  split; [apply construct_Inv|]. split; [cbn; unfold UINT_MOD; lia|].
  cbn. discriminate.
Qed.

Lemma sys_read_frame fd count w :
  fs (snd (sys_read fd count w)) = fs w
  /\ forall k, k <> fd -> fds (snd (sys_read fd count w)) !! k = fds w !! k.
Proof.
  unfold sys_read. destruct (fds w !! fd) as [d|]; [|by split].
  destruct (fd_flags d); [|by split].
  destruct (fs w !! fd_path d) as [[|c]|]; try by split.
  cbn [snd fs fds emit with_fds]. split; [reflexivity|].
  intros k Hk. by rewrite lookup_insert_ne.
Qed.

Lemma sys_lseek_frame fd off w :
  fs (snd (sys_lseek fd off w)) = fs w
  /\ forall k, k <> fd -> fds (snd (sys_lseek fd off w)) !! k = fds w !! k.
Proof.
  unfold sys_lseek. destruct (fds w !! fd) as [d|]; [|by split].
  destruct (0 <=? off); [|by split].
  cbn [snd fs fds emit with_fds]. split; [reflexivity|].
  intros k Hk. by rewrite lookup_insert_ne.
Qed.

Lemma dump_loop_frame fuel :
  forall fd buf st sink w st' sink' w',
    dump_loop fuel fd buf st sink w = Returned (st', sink', w') ->
    fs w' = fs w /\ forall k, k <> fd -> fds w' !! k = fds w !! k.
Proof.
  induction fuel as [|fuel IH]; intros fd buf st sink w st' sink' w' Hrun;
    [discriminate|].
  cbn [dump_loop] in Hrun.
  destruct (sys_read_frame fd (BUF_SIZE - 1) w) as [Hfs Hfds].
  destruct (sys_read fd (BUF_SIZE - 1) w) as [[bytes data] w1]. cbn [snd] in *.
  destruct (bytes =? 0).
  - inversion Hrun; subst. by split.
  - apply IH in Hrun. destruct Hrun as [Hfs' Hfds'].
    split; [by rewrite Hfs'|]. intros k Hk. rewrite Hfds' by assumption. by apply Hfds.
Qed.

(** A [dump] that returns has left every file and every descriptor that
    was open before it as they were. *)
Lemma dump_frame flt stack fuel read_from_beginning h st sink w st' sink' w' :
  dump flt stack fuel read_from_beginning h st sink w = Returned (st', sink', w') ->
  fs w' = fs w
  /\ forall k d, k <> -1 -> fds w !! k = Some d -> fds w' !! k = Some d.
Proof.
  unfold dump.
  pose proof (sys_open_result (open_fails flt) (_path h) O_RDONLY w) as Hopen.
  destruct (sys_open _ _ _ _) as [fd w1]. destruct Hopen as [_ Hopen].
  assert (Hpre : fs w1 = fs w
                 /\ forall k d, k <> -1 -> fds w !! k = Some d ->
                                k <> fd /\ fds w1 !! k = Some d).
  { destruct Hopen as [(-> & Hfs & Hfds)|(Hmin & Hfree & Hfds & Hfs)].
    - split; [exact Hfs|]. intros k d Hk Hd. split; [exact Hk|]. by rewrite Hfds.
    - split; [exact Hfs|]. intros k d Hk Hd.
      assert (k <> fd) by congruence. split; [assumption|].
      rewrite Hfds. by rewrite lookup_insert_ne. }
  destruct Hpre as [Hfs1 Hfds1].
  destruct (fd =? 0).
  - intros Hr. inversion Hr; subst.
    rewrite DEBUG_PRINT_fs, DEBUG_PRINT_fds. split; [exact Hfs1|].
    intros k d Hk Hd. by apply (Hfds1 k d).
  - set (p := if read_from_beginning then _ else _).
    assert (Hp : fs (snd p) = fs w1
                 /\ forall k, k <> fd -> fds (snd p) !! k = fds w1 !! k).
    { unfold p. destruct read_from_beginning; [by split|]. apply sys_lseek_frame. }
    destruct p as [st0 w2]. cbn [snd] in Hp. destruct Hp as [Hfs2 Hfds2].
    destruct (dump_loop _ _ _ _ _ _) as [[[st3 sink3] w3]|] eqn:Hloop; [|discriminate].
    intros Hr. inversion Hr; subst.
    apply dump_loop_frame in Hloop. destruct Hloop as [Hfs3 Hfds3].
    rewrite sys_close_fs, sys_close_fds. split; [by rewrite Hfs3, Hfs2|].
    intros k d Hk Hd. destruct (Hfds1 k d Hk Hd) as [Hne Hd1].
    rewrite lookup_delete_ne by congruence.
    by rewrite Hfds3, Hfds2.
Qed.

Lemma loop_frame now h st w :
  let '(h', st', w') := loop now h st w in
  _fd h' = _fd h /\ _path h' = _path h /\ _open h' = _open h
  /\ (_bytes_queued h' = _bytes_queued h \/ _bytes_queued h' = 0)
  /\ fs w' = fs w /\ fds w' = fds w.
Proof.
  unfold loop. destruct (_open h) eqn:Ho; [|cbv beta iota zeta; auto 10].
  destruct (_ || _); cbv beta iota zeta; [|auto 10].
  cbn [_fd _path _open _bytes_queued set_bytes_queued].
  rewrite sys_fsync_fs, sys_fsync_fds, DEBUG_PRINT_fs, DEBUG_PRINT_fds. auto 10.
Qed.

Lemma writeToFile_range flt message h w :
  0 <= _bytes_queued h < UINT_MOD ->
  0 <= _bytes_queued (fst (writeToFile flt message h w)) < UINT_MOD.
Proof.
  intros Hr. unfold writeToFile. destruct (sys_write _ _ _ _) as [r w1].
  destruct (r =? -1); cbn [fst _bytes_queued set_bytes_queued]; [exact Hr|].
  unfold to_unsigned. apply Z.mod_pos_bound. unfold UINT_MOD. lia.
Qed.

Lemma fileInit_bytes flt h w :
  _bytes_queued (snd (fst (fileInit flt h w))) = _bytes_queued h.
Proof.
  unfold fileInit. destruct (_ || _); [|reflexivity].
  destruct (sys_open _ _ _ _) as [fd w1]. cbn [_fd set_fd].
  destruct (fd =? -1); reflexivity.
Qed.

Lemma logMessage_Good flt msg level category attr s :
  Good s ->
  let '(h', w') := logMessage flt msg level category attr (obj s) (world s) in
  Good {| obj := h'; statics := statics s; console := console s; world := w' |}.
Proof.
  intros (Hi & Hr & Ha).
  pose proof (logMessage_Inv flt msg level category attr (obj s) (world s) Hi) as Hi'.
  unfold logMessage in *. destruct (_enabled (obj s)) eqn:He; cbn [negb] in *.
  2: { split; [exact Hi'|]. split; [exact Hr|exact Ha]. }
  destruct (_open (obj s)) eqn:Ho.
  - destruct Hi as [_ Hfd]. specialize (Hfd Ho).
    destruct (Ha eq_refl) as [c Hc].
    rewrite (fileInit_open flt _ _ Ho Hfd) in *. cbn [negb] in *.
    pose proof (writeToFile_attached flt (render msg level category attr) _ _ c Hc) as Hw.
    pose proof (writeToFile_range flt (render msg level category attr) _ (world s) Hr) as Hr'.
    destruct (writeToFile _ _ _ _) as [h' w']. cbn [fst] in *.
    destruct Hw as (_ & _ & _ & _ & _ & Hc').
    split; [exact Hi'|]. split; [exact Hr'|]. intros _. eauto.
  - pose proof (fileInit_closed flt (obj s) (world s) Ho) as Hf.
    pose proof (fileInit_bytes flt (obj s) (world s)) as Hb.
    destruct (fileInit flt (obj s) (world s)) as [[ok h1] w1]. cbn [fst snd] in *.
    destruct Hf as (_ & _ & Ho1 & _ & Hatt).
    destruct ok; cbn [negb] in *.
    + pose proof (writeToFile_attached flt (render msg level category attr) h1 w1 []
                    (Hatt eq_refl)) as Hw.
      assert (Hr1 : 0 <= _bytes_queued h1 < UINT_MOD) by (by rewrite Hb).
      pose proof (writeToFile_range flt (render msg level category attr) h1 w1 Hr1) as Hr'.
      destruct (writeToFile _ _ _ _) as [h' w']. cbn [fst] in *.
      destruct Hw as (_ & _ & _ & _ & _ & Hc').
      split; [exact Hi'|]. split; [exact Hr'|]. intros _. eauto.
    + split; [exact Hi'|]. cbn [obj]. split; [by rewrite Hb|].
      rewrite Ho1. discriminate.
Qed.

Lemma step_Good c s s' : Good s -> step c s = Some s' -> Good s'.
Proof.
  intros Hg Hs. destruct c; simpl in Hs.
  - pose proof (logMessage_Good flt msg level category attr s Hg) as Hl.
    destruct (logMessage _ _ _ _ _ _ _) as [h w]. by inversion Hs; subst.
  - destruct Hg as (Hi & Hr & Ha).
    pose proof (loop_Inv now _ (statics s) (world s) Hi) as Hi'.
    pose proof (loop_frame now (obj s) (statics s) (world s)) as Hf.
    destruct (loop _ _ _ _) as [[h st] w]. inversion Hs; subst. cbn [fst] in Hi'.
    destruct Hf as (Hfd & Hp & Ho & Hb & Hfs & Hfds).
    split; [exact Hi'|]. split.
    + cbn [obj]. unfold UINT_MOD in *. destruct Hb as [-> | ->]; lia.
    + cbn [obj world]. rewrite Ho. intros Hopen. destruct (Ha Hopen) as [c Hc].
      exists c. by apply (Attached_frame (obj s) h (world s) w).
  - destruct Hg as (Hi & Hr & Ha).
    pose proof (clearLogs_Inv _ (world s) Hi) as Hi'.
    pose proof (clearLogs_removes_file (obj s) (world s)) as Hc.
    unfold clearLogs in *.
    pose proof (syncAndClose_closed (obj s) (world s)) as Hcl.
    destruct (syncAndClose _ _) as [h w] eqn:Hsc. cbn [fst] in *.
    inversion Hs; subst. split; [exact Hi'|]. split.
    + cbn [obj]. destruct Hi' as [Hz _]. rewrite (Hz Hcl). unfold UINT_MOD. lia.
    + cbn [obj]. rewrite Hcl. discriminate.
  - inversion Hs; subst. exact Hg.
  - inversion Hs; subst. exact Hg.
  - destruct Hg as (Hi & Hr & Ha).
    destruct (dump _ _ _ _ _ _ _ _) as [[[st sink] w]|] eqn:Hd; [|discriminate].
    inversion Hs; subst. apply dump_frame in Hd. destruct Hd as [Hfs Hfds].
    split; [exact Hi|]. split; [exact Hr|]. cbn [obj world].
    intros Hopen. destruct (Ha Hopen) as [c [Hc1 Hc2]]. exists c. split.
    + apply Hfds; [|exact Hc1]. destruct Hi as [_ Hfd]. by apply Hfd.
    + by rewrite Hfs.
  - destruct Hg as (Hi & Hr & Ha). unfold destroy in Hs.
    pose proof (syncAndClose_Inv _ (world s) Hi) as Hi'.
    pose proof (syncAndClose_closed (obj s) (world s)) as Hcl.
    destruct (syncAndClose _ _) as [h w]. cbn [fst] in *.
    inversion Hs; subst. split; [exact Hi'|]. split.
    + cbn [obj]. destruct Hi' as [Hz _]. rewrite (Hz Hcl). unfold UINT_MOD. lia.
    + cbn [obj]. rewrite Hcl. discriminate.
Qed.

(** Whatever the program, the state it reaches is good: in particular an
    open handler is always attached to the file at its path, with its
    offset at the end of the file. *)
Lemma run_Good cs : forall s s', Good s -> run cs s = Some s' -> Good s'.
Proof.
  induction cs as [|c cs IH]; intros s s' Hg Hr; simpl in Hr.
  - by inversion Hr; subst.
  - destruct (step c s) as [s1|] eqn:Hs; [|discriminate].
    eapply IH; [|exact Hr]. eapply step_Good; eassumption.
Qed.

(** So the premise of the append case of C8 holds whenever a program has
    left the handler open. *)
Lemma reachable_attached filename enable_now w0 calls s :
  run calls (boot filename enable_now w0) = Some s ->
  _open (obj s) = true ->
  _fd (obj s) <> -1 /\ exists c, Attached (obj s) (world s) c.
Proof.
  intros Hr Ho.
  destruct (run_Good calls _ _ (boot_Good filename enable_now w0) Hr) as ([_ Hfd] & _ & Ha).
  split; [by apply Hfd | by apply Ha].
Qed.

(** ** What the handler writes is text *)

Lemma list_ascii_of_string_append (a b : string) :
  list_ascii_of_string (a +:+ b) = list_ascii_of_string a ++ list_ascii_of_string b.
Proof.
  induction a as [|x a IH]; [reflexivity|].
  change (x :: list_ascii_of_string (a +:+ b)
          = x :: (list_ascii_of_string a ++ list_ascii_of_string b)).
  f_equal. exact IH.
Qed.

Lemma c_str_append a b : c_str a -> c_str b -> c_str (a +:+ b).
Proof.
  unfold c_str, nul_free. rewrite list_ascii_of_string_append. apply Forall_app_2.
Qed.

Lemma c_str_cons x s : c_str (String x s) <-> x <> NUL /\ c_str s.
Proof.
  unfold c_str, nul_free. cbn. split.
  - intros Hf. inversion Hf; subst. by split.
  - intros [Hx Hs]. by constructor.
Qed.

Ltac c_str_literal := unfold c_str, nul_free; cbn; repeat constructor; discriminate.

Lemma strrchr_c_str c s :
  forall t, c_str s -> strrchr s c = Some t -> c_str t.
Proof.
  induction s as [|x s IH]; intros t Hs Ht; cbn in Ht; [discriminate|].
  destruct (strrchr s c) as [t'|] eqn:E.
  - inversion Ht; subst. apply c_str_cons in Hs. apply IH; tauto.
  - destruct (ascii_eqb x c); [|discriminate]. by inversion Ht; subst.
Qed.

Lemma extractFileName_c_str s : c_str s -> c_str (extractFileName s).
Proof.
  intros Hs. unfold extractFileName.
  destruct (strrchr s "/") as [[|x t]|] eqn:E; try assumption.
  apply (strrchr_c_str _ _ _ Hs) in E. apply c_str_cons in E. tauto.
Qed.

Lemma extractFuncName_scan_c_str s :
  forall s1 n, c_str s -> c_str s1 -> c_str (fst (extractFuncName_scan s s1 n)).
Proof.
  induction s as [|x s IH]; intros s1 n Hs Hs1; cbn; [assumption|].
  apply c_str_cons in Hs. destruct Hs as [_ Hs].
  destruct (ascii_eqb x " "); [by apply IH|].
  destruct (ascii_eqb x "("); [assumption | by apply IH].
Qed.

Lemma extractFuncName_c_str s : c_str s -> c_str (fst (extractFuncName s)).
Proof. intros Hs. by apply extractFuncName_scan_c_str. Qed.

Lemma string_of_uint_c_str d : c_str (DecimalString.NilEmpty.string_of_uint d).
Proof.
  induction d; cbn; try (apply c_str_cons; split; [discriminate | assumption]).
  c_str_literal.
Qed.

Lemma NilZero_string_of_uint_c_str d : c_str (DecimalString.NilZero.string_of_uint d).
Proof.
  destruct d; try apply string_of_uint_c_str. c_str_literal.
Qed.

Lemma zero_pad_c_str k s : c_str s -> c_str (zero_pad k s).
Proof.
  intros Hs. induction k as [|k IH]; [assumption|].
  cbn. apply c_str_cons. split; [discriminate | assumption].
Qed.

Lemma format_010u_c_str t : c_str (format_010u t).
Proof.
  unfold format_010u. apply c_str_append; [|c_str_literal].
  apply zero_pad_c_str, NilZero_string_of_uint_c_str.
Qed.

Lemma String_of_int_c_str z : c_str (String_of_int z).
Proof.
  unfold String_of_int, DecimalString.NilZero.string_of_int.
  destruct (Z.to_int z).
  - apply NilZero_string_of_uint_c_str.
  - apply c_str_cons. split; [discriminate | apply NilZero_string_of_uint_c_str].
Qed.

(** Rendering C strings gives a C string: the handler never appends a NUL
    to its file. *)
Lemma render_c_str msg level category attr :
  (forall l, c_str (levelName l)) -> (forall z, c_str (format_pointer z)) ->
  c_str_opt msg -> c_str_opt category ->
  c_str (file attr) -> c_str (function attr) -> c_str (details attr) ->
  c_str (render msg level category attr).
Proof.
  intros Hlevel Hptr Hmsg Hcat Hfile Hfun Hdet.
  assert (Hlit : forall s, c_str s -> c_str (s +:+ ": ")
                           /\ c_str (s +:+ ", ") /\ c_str (s +:+ "(): ")
                           /\ c_str (s +:+ " [") /\ c_str (s +:+ "]")
                           /\ c_str (s +:+ ":") /\ c_str (s +:+ "[")
                           /\ c_str (s +:+ "] ") /\ c_str (s +:+ "code = ")
                           /\ c_str (s +:+ "details = ")).
  { intros s Hs. repeat split; (apply c_str_append; [assumption | c_str_literal]). }
  unfold render. apply c_str_append; [|c_str_literal].
  assert (H0 : c_str "") by c_str_literal.
  assert (H1 : c_str (render_time attr "")).
  { unfold render_time. destruct (has_time attr); [|assumption].
    apply c_str_append; [assumption | apply format_010u_c_str]. }
  assert (H2 : c_str (render_category category (render_time attr ""))).
  { unfold render_category. destruct category as [c|]; [|assumption].
    apply c_str_append; [assumption|]. apply c_str_append; [c_str_literal|].
    apply c_str_append; [exact Hcat | c_str_literal]. }
  assert (H3 : c_str (render_file attr (render_category category (render_time attr "")))).
  { unfold render_file. destruct (has_file attr); [|assumption].
    pose proof (extractFileName_c_str _ Hfile) as Hf.
    assert (Hff : c_str (extractFileName (file attr) +:+ extractFileName (file attr)))
      by (by apply c_str_append).
    assert (Hl : c_str (if has_line attr
                        then (extractFileName (file attr) +:+ extractFileName (file attr))
                             +:+ ":" +:+ String_of_int (line attr)
                        else extractFileName (file attr) +:+ extractFileName (file attr))).
    { destruct (has_line attr); [|assumption].
      apply c_str_append; [assumption|].
      apply c_str_append; [c_str_literal | apply String_of_int_c_str]. }
    destruct (has_function attr); by apply Hlit. }
  assert (H4 : c_str (render_function attr
                        (render_file attr (render_category category (render_time attr ""))))).
  { unfold render_function. destruct (has_function attr); [|assumption].
    pose proof (extractFuncName_c_str _ Hfun) as Hf.
    apply Hlit. by apply c_str_append. }
  set (s4 := render_function _ _) in *.
  assert (H5 : c_str (render_level level s4)).
  { unfold render_level. apply c_str_append; [assumption|]. by apply Hlit. }
  assert (H6 : c_str (render_msg msg (render_level level s4))).
  { unfold render_msg. destruct msg as [m|]; [|assumption]. by apply c_str_append. }
  set (s6 := render_msg _ _) in *.
  unfold render_attrs. destruct (has_code attr || has_details attr); [|assumption].
  apply Hlit.
  assert (H7 : c_str (if has_code attr
                      then (s6 +:+ " [") +:+ "code = " +:+ format_pointer (code attr)
                      else s6 +:+ " [")).
  { destruct (has_code attr); [|by apply Hlit].
    apply c_str_append; [by apply Hlit|].
    apply c_str_append; [c_str_literal | apply Hptr]. }
  destruct (has_details attr); [|assumption].
  apply c_str_append; [destruct (has_code attr); [by apply Hlit | assumption]|].
  apply c_str_append; [c_str_literal | assumption].
Qed.

(** ** [extractFileName] and [extractFuncName] *)

Lemma append_cons (a : ascii) (r b : string) : String a r +:+ b = String a (r +:+ b).
Proof. reflexivity. Qed.

Lemma append_empty_r (a : string) : a +:+ "" = a.
Proof.
  induction a as [|x a IH]; [reflexivity|]. rewrite append_cons. by rewrite IH.
Qed.

Lemma length_append (a b : string) :
  String.length (a +:+ b) = (String.length a + String.length b)%nat.
Proof.
  induction a as [|x a IH]; [reflexivity|].
  rewrite append_cons. cbn [String.length]. by rewrite IH.
Qed.

Lemma string_mem_append c a b :
  string_mem c (a +:+ b) = string_mem c a || string_mem c b.
Proof.
  induction a as [|x a IH]; [reflexivity|].
  rewrite append_cons. cbn [string_mem]. rewrite IH. by rewrite orb_assoc.
Qed.

Lemma string_take_append (a b : string) : string_take (String.length a) (a +:+ b) = a.
Proof.
  induction a as [|x a IH]; [by destruct b|].
  rewrite append_cons. cbn [String.length string_take]. by rewrite IH.
Qed.

Lemma string_take_all (a : string) : string_take (String.length a) a = a.
Proof.
  induction a as [|x a IH]; [reflexivity|]. cbn [String.length string_take]. by rewrite IH.
Qed.

Lemma strrchr_absent c s : string_mem c s = false -> strrchr s c = None.
Proof.
  induction s as [|x s IH]; [reflexivity|]. cbn [string_mem strrchr].
  intros Hm. apply orb_false_iff in Hm. destruct Hm as [Hx Hs].
  by rewrite IH, Hx.
Qed.

(** [strrchr] finds the last occurrence: what follows it is free of [c],
    and what it returns is a suffix of its argument. *)
Lemma strrchr_found c s :
  forall t, strrchr s c = Some t ->
    exists pre t', t = String c t' /\ string_mem c t' = false /\ s = pre +:+ t.
Proof.
  induction s as [|x s IH]; intros t Ht; cbn [strrchr] in Ht; [discriminate|].
  destruct (strrchr s c) as [u|] eqn:E.
  - inversion Ht; subst. destruct (IH _ eq_refl) as (pre & t' & -> & Hfree & ->).
    exists (String x pre), t'. by rewrite append_cons.
  - destruct (ascii_eqb x c) eqn:Hx; [|discriminate]. inversion Ht; subst.
    apply Ascii.eqb_eq in Hx. subst. exists "", s. repeat split.
    destruct (string_mem c s) eqn:Hm; [|reflexivity].
    assert (Hsome : strrchr s c <> None).
    { clear -Hm. induction s as [|y s IH]; [discriminate|]. cbn [string_mem strrchr] in *.
      destruct (strrchr s c); [discriminate|].
      destruct (ascii_eqb y c); [discriminate|]. cbn in Hm. by apply IH. }
    contradiction.
Qed.

Lemma strrchr_last c pre t :
  string_mem c t = false -> strrchr (pre +:+ String c t) c = Some (String c t).
Proof.
  intros Hfree. induction pre as [|x pre IH].
  - change (strrchr (String c t) c = Some (String c t)). cbn [strrchr].
    rewrite (strrchr_absent _ _ Hfree). unfold ascii_eqb. by rewrite Ascii.eqb_refl.
  - rewrite append_cons. cbn [strrchr]. by rewrite IH.
Qed.

(** X1. [extractFileName] returns the last component of a path: for a
    name without a slash, whatever directory prefix is put in front of it is
    stripped. *)
Theorem X1_extractFileName_strips_directory :
  forall dir name,
    string_mem "/" name = false ->
    extractFileName (dir +:+ String "/" name) = name.
Proof.
  intros dir name Hfree. unfold extractFileName.
  by rewrite (strrchr_last _ _ _ Hfree).
Qed.

(** X2. Whatever its argument, [extractFileName] returns a suffix of it
    that contains no slash; an argument without a slash is returned as it
    is. *)
Theorem X2_extractFileName_is_slash_free_suffix :
  forall s,
    string_mem "/" (extractFileName s) = false
    /\ (exists pre, s = pre +:+ extractFileName s)
    /\ (string_mem "/" s = false -> extractFileName s = s).
Proof.
  intros s. unfold extractFileName.
  destruct (strrchr s "/") as [t|] eqn:E.
  - destruct (strrchr_found _ _ _ E) as (pre & t' & -> & Hfree & Hs).
    split; [exact Hfree|]. split.
    + exists (pre +:+ "/"). rewrite Hs, append_assoc. reflexivity.
    + intros Hno. rewrite (strrchr_absent _ _ Hno) in E. discriminate.
  - split; [|split; [by exists "" | reflexivity]].
    destruct (string_mem "/" s) eqn:Hm; [|reflexivity]. exfalso.
    clear -E Hm. induction s as [|y s IH]; [discriminate|].
    cbn [string_mem strrchr] in *. destruct (strrchr s "/"); [discriminate|].
    destruct (ascii_eqb y "/"); [discriminate|]. cbn in Hm. by apply IH.
Qed.

(** Scanning a return type: up to and including a space, with no opening
    parenthesis on the way, the scan restarts after the space. *)
Lemma extractFuncName_scan_skips ret rest :
  string_mem "(" ret = false ->
  forall s1 n,
    extractFuncName_scan (ret +:+ String " " rest) s1 n = extractFuncName_scan rest rest 0.
Proof.
  intros Hret. induction ret as [|x ret IH]; intros s1 n.
  - reflexivity.
  - rewrite append_cons. cbn [extractFuncName_scan string_mem] in *.
    apply orb_false_iff in Hret. destruct Hret as [Hx Hret].
    destruct (ascii_eqb x " "); [by apply IH|]. rewrite Hx. by apply IH.
Qed.

(** Scanning a name: it ends at the opening parenthesis. *)
Lemma extractFuncName_scan_name name rest :
  string_mem " " name = false -> string_mem "(" name = false ->
  forall s1 n,
    extractFuncName_scan (name +:+ String "(" rest) s1 n = (s1, (n + String.length name)%nat).
Proof.
  intros Hsp Hpa. induction name as [|x name IH]; intros s1 n.
  - cbn. f_equal. lia.
  - rewrite append_cons. cbn [extractFuncName_scan string_mem String.length] in *.
    apply orb_false_iff in Hsp. destruct Hsp as [Hx1 Hsp].
    apply orb_false_iff in Hpa. destruct Hpa as [Hx2 Hpa].
    rewrite Hx1, Hx2, IH by assumption. f_equal. lia.
Qed.

(** X3. On a signature [ret name(args], where the return type has no
    parenthesis and the name neither space nor parenthesis,
    [extractFuncName] returns the pointer to the name and the name's
    length: the first [size] characters at the pointer are the name. *)
Theorem X3_extractFuncName_on_signature :
  forall ret name args,
    string_mem "(" ret = false ->
    string_mem " " name = false -> string_mem "(" name = false ->
    extractFuncName (ret +:+ String " " (name +:+ String "(" args))
    = (name +:+ String "(" args, String.length name)
    /\ string_take (snd (extractFuncName (ret +:+ String " " (name +:+ String "(" args))))
         (fst (extractFuncName (ret +:+ String " " (name +:+ String "(" args))))
       = name.
Proof.
  intros ret name args Hret Hsp Hpa.
  assert (He : extractFuncName (ret +:+ String " " (name +:+ String "(" args))
               = (name +:+ String "(" args, String.length name)).
  { unfold extractFuncName. rewrite extractFuncName_scan_skips by assumption.
    by rewrite extractFuncName_scan_name. }
  split; [exact He|]. rewrite He. cbn [fst snd]. apply string_take_append.
Qed.

Lemma extractFuncName_scan_inv s :
  forall s1 n pre,
    s1 = pre +:+ s -> String.length pre = n ->
    string_mem " " pre = false -> string_mem "(" pre = false ->
    let '(r, m) := extractFuncName_scan s s1 n in
    string_mem " " (string_take m r) = false
    /\ string_mem "(" (string_take m r) = false
    /\ (m <= String.length r)%nat
    /\ exists skipped, s1 = skipped +:+ r.
Proof.
  induction s as [|x s IH]; intros s1 n pre Hs1 Hn Hsp Hpa.
  - cbn [extractFuncName_scan]. subst. rewrite append_empty_r.
    rewrite string_take_all.
    repeat split; try assumption; [lia | by exists ""].
  - cbn [extractFuncName_scan]. destruct (ascii_eqb x " ") eqn:H1.
    + specialize (IH s 0%nat "" eq_refl eq_refl eq_refl eq_refl).
      destruct (extractFuncName_scan s s 0) as [r m].
      destruct IH as (Ha & Hb & Hc & skipped & Hd). repeat split; try assumption.
      exists (pre +:+ String x skipped). subst s1. rewrite Hd at 1.
      by rewrite append_assoc, append_cons.
    + destruct (ascii_eqb x "(") eqn:H2.
      * subst. rewrite string_take_append. repeat split; try assumption.
        -- rewrite length_append. lia.
        -- by exists "".
      * apply (IH s1 (S n) (pre +:+ String x "")).
        -- subst s1. by rewrite append_assoc.
        -- rewrite length_append. cbn. lia.
        -- rewrite string_mem_append, Hsp. cbn. by rewrite H1.
        -- rewrite string_mem_append, Hpa. cbn. by rewrite H2.
Qed.

(** X4. Whatever its argument, [extractFuncName] returns a suffix of it
    and a size within that suffix, and the [size] characters it designates
    contain neither a space nor an opening parenthesis. *)
Theorem X4_extractFuncName_name_is_clean :
  forall s,
    let '(r, m) := extractFuncName s in
    string_mem " " (string_take m r) = false
    /\ string_mem "(" (string_take m r) = false
    /\ (m <= String.length r)%nat
    /\ exists skipped, s = skipped +:+ r.
Proof.
  intros s. unfold extractFuncName.
  by apply (extractFuncName_scan_inv s s 0%nat "").
Qed.

(** ** Directory bootstrap *)

Lemma sys_unlink_frame path w :
  forall p, p <> path -> fs (snd (sys_unlink path w)) !! p = fs w !! p.
Proof.
  intros p Hp. unfold sys_unlink.
  destruct (fs w !! path) as [[|c]|]; cbn [snd fs emit with_fs]; try reflexivity.
  by rewrite lookup_delete_ne.
Qed.

Lemma sys_mkdir_spec fault path w :
  (fst (sys_mkdir fault path w) = 0 \/ fst (sys_mkdir fault path w) = -1)
  /\ (fst (sys_mkdir fault path w) = 0 -> fs (snd (sys_mkdir fault path w)) !! path = Some Dir)
  /\ (forall p, p <> path -> fs (snd (sys_mkdir fault path w)) !! p = fs w !! p).
Proof.
  unfold sys_mkdir. destruct fault; [cbn; split; [auto | split; [discriminate | auto]]|].
  destruct (fs w !! path) eqn:E; [cbn; split; [auto | split; [discriminate | auto]]|].
  destruct (parent_ok _ _); cbn [fst snd fs emit with_fs].
  - split; [auto|]. split; [intros _; apply lookup_insert_eq|].
    intros p Hp. by rewrite lookup_insert_ne.
  - split; [auto | split; [discriminate | auto]].
Qed.

Lemma sys_mkdir_ok path w :
  fs w !! path = None -> parent_ok (fs w) path = true ->
  fst (sys_mkdir false path w) = 0.
Proof. intros Hn Hp. unfold sys_mkdir. by rewrite Hn, Hp. Qed.

Lemma parent_ok_delete (m : gmap string node) path :
  parent_ok m path = true -> m !! path <> Some Dir ->
  parent_ok (delete path m) path = true.
Proof.
  unfold parent_ok. destruct (parent_dir path) as [d|]; [|reflexivity].
  destruct (m !! d) as [[|c]|] eqn:E; try discriminate. intros _ Hne.
  assert (d <> path) by congruence. by rewrite lookup_delete_ne, E.
Qed.

(** The tail of [createDirIfNecessary]: [mkdir] and the report of its
    result. *)
Lemma createDir_mkdir_step flt path w0 :
  let '(r, w1) := sys_mkdir (mkdir_fails flt) path w0 in
  let res := if r =? 0 then (true, DEBUG_PRINT DebugCreatedDir w1)
             else (false, DEBUG_PRINT DebugMkdirFailed w1) in
  (fst res = true -> fs (snd res) !! path = Some Dir)
  /\ (fst res = true <-> r = 0)
  /\ (forall p, p <> path -> fs (snd res) !! p = fs w0 !! p).
Proof.
  destruct (sys_mkdir_spec (mkdir_fails flt) path w0) as (Hr & Hdir & Hframe).
  destruct (sys_mkdir _ _ _) as [r w1]. cbn [fst snd] in *.
  destruct Hr as [-> | ->]; cbn [Z.eqb fst snd]; rewrite DEBUG_PRINT_fs.
  - split; [auto|]. split; [tauto | exact Hframe].
  - split; [discriminate|]. split; [|exact Hframe]. split; discriminate.
Qed.

Lemma createDirIfNecessary_spec :
  forall flt path w,
    (fst (createDirIfNecessary flt path w) = true ->
     fs (snd (createDirIfNecessary flt path w)) !! path = Some Dir)
    /\ (forall p, p <> path ->
          fs (snd (createDirIfNecessary flt path w)) !! p = fs w !! p).
Proof.
  intros flt path w. unfold createDirIfNecessary, sys_stat.
  destruct (stat_fails flt).
  { cbn [fst snd]. rewrite DEBUG_PRINT_fs. split; [discriminate | auto]. }
  destruct (fs w !! path) as [[|c]|] eqn:E.
  - cbn [fst snd]. rewrite DEBUG_PRINT_fs. split; auto.
  - pose proof (createDir_mkdir_step flt path
                  (snd (sys_unlink path (DEBUG_PRINT DebugFileInTheWay w)))) as Hm.
    destruct (sys_mkdir _ _ _) as [r w1]. cbv zeta in Hm.
    destruct Hm as (Hdir & _ & Hframe). split; [exact Hdir|].
    intros p Hp. rewrite Hframe, sys_unlink_frame by assumption. by rewrite DEBUG_PRINT_fs.
  - pose proof (createDir_mkdir_step flt path w) as Hm.
    destruct (sys_mkdir _ _ _) as [r w1]. cbv zeta in Hm.
    destruct Hm as (Hdir & _ & Hframe). split; [exact Hdir | exact Hframe].
Qed.

(** X5. When [createDirIfNecessary] returns true the path is a directory;
    whatever it returns, no other path of the filesystem has changed. *)
Theorem X5_createDirIfNecessary_sound :
  forall flt path w,
    (fst (createDirIfNecessary flt path w) = true ->
     fs (snd (createDirIfNecessary flt path w)) !! path = Some Dir)
    /\ (forall p, p <> path ->
          fs (snd (createDirIfNecessary flt path w)) !! p = fs w !! p).
Proof. exact createDirIfNecessary_spec. Qed.

(** X6. When a regular file occupies the path and [mkdir] then fails,
    [createDirIfNecessary] returns false with the file already deleted:
    nothing is left at the path. *)
Theorem X6_createDirIfNecessary_failed_mkdir_loses_file :
  forall flt path w c,
    fs w !! path = Some (File c) ->
    stat_fails flt = false -> mkdir_fails flt = true ->
    fst (createDirIfNecessary flt path w) = false
    /\ fs (snd (createDirIfNecessary flt path w)) !! path = None.
Proof.
  intros flt path w c Hfile Hstat Hmk. unfold createDirIfNecessary, sys_stat.
  rewrite Hstat, Hfile, Hmk.
  set (w0 := snd (sys_unlink path (DEBUG_PRINT DebugFileInTheWay w))).
  assert (H0 : fs w0 !! path = None).
  { unfold w0. apply sys_unlink_lookup. rewrite DEBUG_PRINT_fs, Hfile. discriminate. }
  unfold sys_mkdir. cbn [Z.eqb fst snd]. rewrite DEBUG_PRINT_fs. by split.
Qed.

Lemma createDirIfNecessary_succeeds :
  forall flt path w,
    stat_fails flt = false -> mkdir_fails flt = false ->
    parent_ok (fs w) path = true ->
    fst (createDirIfNecessary flt path w) = true
    /\ fs (snd (createDirIfNecessary flt path w)) !! path = Some Dir.
Proof.
  intros flt path w Hstat Hmk Hpar.
  assert (Hok : fst (createDirIfNecessary flt path w) = true).
  { unfold createDirIfNecessary, sys_stat. rewrite Hstat, Hmk.
    destruct (fs w !! path) as [[|c]|] eqn:E.
    - reflexivity.
    - set (w0 := snd (sys_unlink path (DEBUG_PRINT DebugFileInTheWay w))).
      assert (H0 : fs w0 !! path = None).
      { unfold w0. apply sys_unlink_lookup. rewrite DEBUG_PRINT_fs, E. discriminate. }
      assert (Hp0 : parent_ok (fs w0) path = true).
      { unfold w0, sys_unlink. rewrite DEBUG_PRINT_fs, E. cbn [snd fs emit with_fs].
        apply parent_ok_delete; [exact Hpar | rewrite E; discriminate]. }
      pose proof (sys_mkdir_ok path w0 H0 Hp0) as Hr.
      destruct (sys_mkdir false path w0) as [r w1]. cbn [fst] in Hr. by subst.
    - pose proof (sys_mkdir_ok path w E Hpar) as Hr.
      destruct (sys_mkdir false path w) as [r w1]. cbn [fst] in Hr. by subst. }
  split; [exact Hok|]. by apply createDirIfNecessary_spec.
Qed.

(** X7. With no injected failure and the parent directory in place,
    [createDirIfNecessary] returns true and leaves a directory at the path,
    whether the path was absent, already a directory, or occupied by a
    regular file. *)
Theorem X7_createDirIfNecessary_succeeds :
  forall flt path w,
    stat_fails flt = false -> mkdir_fails flt = false ->
    parent_ok (fs w) path = true ->
    fst (createDirIfNecessary flt path w) = true
    /\ fs (snd (createDirIfNecessary flt path w)) !! path = Some Dir.
Proof. exact createDirIfNecessary_succeeds. Qed.

(** X8. Once [createDirIfNecessary] has returned true, calling it again
    (with [stat] working) returns true and does nothing else: no [unlink],
    no [mkdir], only the report that the directory exists. *)
Theorem X8_createDirIfNecessary_idempotent :
  forall flt1 flt2 path w,
    fst (createDirIfNecessary flt1 path w) = true ->
    stat_fails flt2 = false ->
    createDirIfNecessary flt2 path (snd (createDirIfNecessary flt1 path w))
    = (true, DEBUG_PRINT DebugDirExists (snd (createDirIfNecessary flt1 path w))).
Proof.
  intros flt1 flt2 path w Hok Hstat.
  destruct (createDirIfNecessary_spec flt1 path w) as [Hdir _].
  specialize (Hdir Hok). unfold createDirIfNecessary at 1. unfold sys_stat.
  by rewrite Hstat, Hdir.
Qed.

(** ** The first write, and writes that cannot open the file *)

Lemma parent_dir_log_path filename :
  string_mem "/" filename = false ->
  parent_dir ("/log/" +:+ filename +:+ ".log") = Some "/log".
Proof.
  intros Hfree. unfold parent_dir.
  assert (Hrest : string_mem "/" (filename +:+ ".log") = false)
    by (by rewrite string_mem_append, Hfree).
  change ("/log/" +:+ filename +:+ ".log")
    with ("/log" +:+ String "/" (filename +:+ ".log")).
  rewrite (strrchr_last "/" "/log" _ Hrest).
  rewrite length_append. cbn [String.length].
  replace (4 + S (String.length (filename +:+ ".log"))
           - S (String.length (filename +:+ ".log")))%nat with 4%nat by lia.
  reflexivity.
Qed.

Lemma log_path_not_log filename : "/log/" +:+ filename +:+ ".log" <> "/log".
Proof.
  intros Heq. apply (f_equal String.length) in Heq.
  rewrite !length_append in Heq. cbn [String.length] in Heq. lia.
Qed.

Lemma sys_open_trunc_ok path w :
  fs w !! path <> Some Dir -> parent_ok (fs w) path = true ->
  exists fd,
    MINIMAL_FD <= fd /\ fds w !! fd = None
    /\ sys_open false path O_WRONLY_CREAT_TRUNC w
       = (fd, emit (EOpen path O_WRONLY_CREAT_TRUNC fd)
                (with_fds (<[fd := {| fd_path := path; fd_off := 0;
                                      fd_flags := O_WRONLY_CREAT_TRUNC |}]> (fds w))
                   (with_fs (<[path := File []]> (fs w)) w))).
Proof.
  intros Hnd Hpar. destruct (alloc_fd_total (fds w)) as [fd Ha].
  destruct (alloc_fd_spec _ _ Ha) as [Hmin Hfree].
  exists fd. split; [assumption|]. split; [assumption|].
  unfold sys_open, open_new. rewrite Hpar, Ha.
  destruct (fs w !! path) as [[|c]|]; [congruence | reflexivity | reflexivity].
Qed.

(** [fileInit] on a closed handler whose [open] is not made to fail and
    finds its directory. *)
Lemma fileInit_opens flt h w w0 :
  _open h = false -> open_fails flt = false ->
  w0 = snd (createDirIfNecessary flt "/log" w) ->
  fs w0 !! _path h <> Some Dir -> parent_ok (fs w0) (_path h) = true ->
  exists fd w1,
    fileInit flt h w = (true, set_open true (set_fd fd h), w1)
    /\ MINIMAL_FD <= fd
    /\ Attached (set_open true (set_fd fd h)) w1 []
    /\ (forall p, p <> _path h -> fs w1 !! p = fs w0 !! p)
    /\ count_events is_write (trace w1) = count_events is_write (trace w0).
Proof.
  intros Ho Hflt Hw0 Hnd Hpar. unfold fileInit. rewrite Ho, Hflt, <- Hw0. cbn [negb orb].
  destruct (sys_open_trunc_ok (_path h) w0 Hnd Hpar) as (fd & Hmin & Hfree & Hopen).
  rewrite Hopen. cbv beta iota zeta. cbn [_fd set_fd]. unfold MINIMAL_FD in *.
  replace (fd =? -1) with false by (symmetry; apply Z.eqb_neq; lia).
  eexists fd, _. split; [reflexivity|]. split; [assumption|]. split; [|split].
  - split; [rewrite TRACE_PRINT_fds | rewrite TRACE_PRINT_fs];
      cbn [_fd _path set_open set_fd fs fds emit with_fds with_fs]; apply lookup_insert_eq.
  - intros p Hp. rewrite TRACE_PRINT_fs. cbn [fs emit with_fds with_fs].
    by rewrite lookup_insert_ne.
  - by rewrite TRACE_PRINT_count.
Qed.

Lemma writeToFile_counter flt message h w c :
  Attached h w c -> write_fails flt = false ->
  _bytes_queued (fst (writeToFile flt message h w))
  = to_unsigned (_bytes_queued h + Z.of_nat (String.length message))
  /\ (forall p, p <> _path h -> fs (snd (writeToFile flt message h w)) !! p = fs w !! p).
Proof.
  intros [Hfd Hfs] Hflt. unfold writeToFile, sys_write. rewrite Hflt, Hfd.
  cbn [fd_flags fd_path fd_off]. rewrite Hfs. cbv beta iota zeta.
  replace (Z.of_nat (length (list_ascii_of_string message)) =? -1) with false
    by (symmetry; apply Z.eqb_neq; lia).
  cbn [fst snd _bytes_queued set_bytes_queued]. split; [reflexivity|].
  intros p Hp. rewrite TRACE_PRINT_fs. cbn [fs emit with_fds with_fs].
  by rewrite lookup_insert_ne.
Qed.

(** The first record on a handler that is not open, in an environment
    without failures. *)
Lemma logMessage_fresh flt msg level category attr h w filename :
  _enabled h = true -> _open h = false ->
  _path h = "/log/" +:+ filename +:+ ".log" -> string_mem "/" filename = false ->
  stat_fails flt = false -> mkdir_fails flt = false ->
  open_fails flt = false -> write_fails flt = false ->
  fs w !! _path h <> Some Dir ->
  let line := render msg level category attr in
  let '(h', w') := logMessage flt msg level category attr h w in
  _open h' = true /\ MINIMAL_FD <= _fd h'
  /\ fs w' !! "/log" = Some Dir
  /\ Attached h' w' (list_ascii_of_string line)
  /\ _bytes_queued h' = to_unsigned (_bytes_queued h + Z.of_nat (String.length line)).
Proof.
  intros He Ho Hpath Hfree Hstat Hmk Hopen Hwr Hnd line. subst line. unfold logMessage.
  rewrite He. cbn [negb].
  set (w0 := snd (createDirIfNecessary flt "/log" w)).
  destruct (createDirIfNecessary_succeeds flt "/log" w Hstat Hmk eq_refl) as [_ Hdir].
  destruct (createDirIfNecessary_spec flt "/log" w) as [_ Hframe].
  assert (Hne : _path h <> "/log") by (rewrite Hpath; apply log_path_not_log).
  assert (Hnd0 : fs w0 !! _path h <> Some Dir) by (unfold w0; by rewrite Hframe).
  assert (Hpar0 : parent_ok (fs w0) (_path h) = true).
  { unfold parent_ok. rewrite Hpath, (parent_dir_log_path _ Hfree). fold w0 in Hdir.
    by rewrite Hdir. }
  destruct (fileInit_opens flt h w w0 Ho Hopen eq_refl Hnd0 Hpar0)
    as (fd & w1 & Hinit & Hmin & Hatt & Hframe1 & _).
  rewrite Hinit. cbn [negb].
  pose proof (writeToFile_attached flt (render msg level category attr) _ _ _ Hatt) as Hw.
  destruct (writeToFile_counter flt (render msg level category attr) _ _ _ Hatt Hwr)
    as [Hcnt Hframe2].
  destruct (writeToFile flt _ _ w1) as [h' w']. cbn [fst snd] in *.
  destruct Hw as (Hfd' & Hp' & Ho' & _ & _ & Ha'). rewrite Hwr in Ha'.
  split; [by rewrite Ho'|]. split; [by rewrite Hfd'|]. split; [|split].
  - rewrite Hframe2, Hframe1 by (cbn; congruence). exact Hdir.
  - exact Ha'.
  - exact Hcnt.
Qed.

(** X9. The first [logMessage] of an enabled handler whose file name has
    no slash, when nothing fails: [/log] is a directory afterwards (created
    if it was missing, replacing a regular file if one was in the way), the
    handler is open on a descriptor of its own, the log file holds exactly
    the rendered record, and the pending counter has grown by its length. *)
Theorem X9_first_logMessage_creates_directory_and_file :
  forall flt msg level category attr h w filename,
    _enabled h = true -> _open h = false ->
    _path h = "/log/" +:+ filename +:+ ".log" -> string_mem "/" filename = false ->
    stat_fails flt = false -> mkdir_fails flt = false ->
    open_fails flt = false -> write_fails flt = false ->
    fs w !! _path h <> Some Dir ->
    let line := render msg level category attr in
    let '(h', w') := logMessage flt msg level category attr h w in
    _open h' = true /\ MINIMAL_FD <= _fd h'
    /\ fs w' !! "/log" = Some Dir
    /\ Attached h' w' (list_ascii_of_string line)
    /\ _bytes_queued h' = to_unsigned (_bytes_queued h + Z.of_nat (String.length line)).
Proof. exact logMessage_fresh. Qed.

Lemma createDirIfNecessary_quiet p flt path w :
  (forall d, p (ESerial d) = false) -> (forall q, p (EUnlink q) = false) ->
  (forall q r, p (EMkdir q r) = false) ->
  count_events p (trace (snd (createDirIfNecessary flt path w)))
  = count_events p (trace w).
Proof.
  intros Hs Hu Hm.
  assert (Hunlink : forall w0, count_events p (trace (snd (sys_unlink path w0)))
                               = count_events p (trace w0)).
  { intros w0. unfold sys_unlink.
    destruct (fs w0 !! path) as [[|c]|]; cbn [snd]; rewrite count_events_emit, Hu;
      reflexivity. }
  assert (Hmkdir : forall w0, count_events p (trace (snd (sys_mkdir (mkdir_fails flt) path w0)))
                              = count_events p (trace w0)).
  { intros w0. unfold sys_mkdir. destruct (mkdir_fails flt);
      [cbn [snd]; by rewrite count_events_emit, Hm|].
    destruct (fs w0 !! path); [cbn [snd]; by rewrite count_events_emit, Hm|].
    destruct (parent_ok _ _); cbn [snd]; by rewrite count_events_emit, Hm. }
  unfold createDirIfNecessary.
  destruct (sys_stat _ _ _) as [[|c]| |]; cbn [snd].
  - by apply DEBUG_PRINT_count.
  - specialize (Hmkdir (snd (sys_unlink path (DEBUG_PRINT DebugFileInTheWay w)))).
    destruct (sys_mkdir _ _ _) as [r w1]. cbn [snd] in Hmkdir.
    destruct (r =? 0); cbn [snd];
      rewrite DEBUG_PRINT_count, Hmkdir, Hunlink by assumption; by apply DEBUG_PRINT_count.
  - specialize (Hmkdir w). destruct (sys_mkdir _ _ _) as [r w1]. cbn [snd] in Hmkdir.
    destruct (r =? 0); cbn [snd]; by rewrite DEBUG_PRINT_count.
  - by apply DEBUG_PRINT_count.
Qed.

(** One [logMessage] whose [open] fails. *)
Lemma logMessage_open_fails flt msg level category attr h w :
  _enabled h = true -> _open h = false -> open_fails flt = true ->
  let '(h', w') := logMessage flt msg level category attr h w in
  _enabled h' = true /\ _open h' = false /\ _fd h' = -1
  /\ _bytes_queued h' = _bytes_queued h
  /\ count_events is_open_trunc (trace w') = S (count_events is_open_trunc (trace w))
  /\ count_events is_write (trace w') = count_events is_write (trace w).
Proof.
  intros He Ho Hflt. unfold logMessage, fileInit. rewrite He, Ho, Hflt.
  cbn [negb orb sys_open open_failed]. cbv beta iota zeta. cbn [_fd set_fd Z.eqb Pos.eqb negb].
  cbn [_enabled _open _fd _bytes_queued set_open set_fd].
  repeat split; try assumption.
  - rewrite TRACE_PRINT_count, DEBUG_PRINT_count by reflexivity.
    rewrite count_events_emit. cbn [is_open_trunc]. f_equal.
    by apply createDirIfNecessary_quiet.
  - rewrite TRACE_PRINT_count, DEBUG_PRINT_count by reflexivity.
    rewrite count_events_emit. cbn [is_write].
    by apply createDirIfNecessary_quiet.
Qed.

(** X10. While [open] keeps failing, an enabled handler stays closed with
    its counter untouched: every [logMessage] call makes one new [open]
    attempt (there is no back-off) and no [write] call at all. *)
Theorem X10_open_failure_is_retried_on_every_call :
  forall records h w,
    _enabled h = true -> _open h = false ->
    Forall (fun r => open_fails (record_faults r) = true) records ->
    let '(h', w') := logMessages records h w in
    _open h' = false /\ _bytes_queued h' = _bytes_queued h
    /\ count_events is_open_trunc (trace w')
       = (length records + count_events is_open_trunc (trace w))%nat
    /\ count_events is_write (trace w') = count_events is_write (trace w).
Proof.
  induction records as [|[[[[flt msg] level] category] attr] rest IH];
    intros h w He Ho Hall; cbn [logMessages].
  - auto.
  - inversion Hall as [|? ? Hflt Hrest]; subst. cbn [record_faults] in Hflt.
    pose proof (logMessage_open_fails flt msg level category attr h w He Ho Hflt) as Hone.
    destruct (logMessage flt msg level category attr h w) as [h1 w1].
    destruct Hone as (He1 & Ho1 & _ & Hb1 & Hc1 & Hw1).
    specialize (IH h1 w1 He1 Ho1 Hrest).
    destruct (logMessages rest h1 w1) as [h' w'].
    destruct IH as (Ho' & Hb' & Hc' & Hw').
    split; [exact Ho'|]. split; [congruence|]. split; [|congruence].
    rewrite Hc', Hc1. cbn [length]. lia.
Qed.

(** X11. [fileInit] does not look at the result of
    [createDirIfNecessary]: when the directory check fails on a [stat]
    error but the directory is in fact there, the file is opened all the
    same. *)
Theorem X11_fileInit_ignores_failed_directory_check :
  forall flt h w,
    _open h = false -> stat_fails flt = true -> open_fails flt = false ->
    fs w !! _path h <> Some Dir -> parent_ok (fs w) (_path h) = true ->
    fst (createDirIfNecessary flt "/log" w) = false
    /\ exists h1 w1,
         fileInit flt h w = (true, h1, w1) /\ _open h1 = true /\ Attached h1 w1 [].
Proof.
  intros flt h w Ho Hstat Hopen Hnd Hpar.
  assert (Hcd : createDirIfNecessary flt "/log" w = (false, DEBUG_PRINT DebugStatFailed w)).
  { unfold createDirIfNecessary, sys_stat. by rewrite Hstat. }
  split; [by rewrite Hcd|].
  destruct (fileInit_opens flt h w (DEBUG_PRINT DebugStatFailed w) Ho Hopen)
    as (fd & w1 & Hinit & _ & Hatt & _).
  - by rewrite Hcd.
  - by rewrite DEBUG_PRINT_fs.
  - by rewrite DEBUG_PRINT_fs.
  - eexists _, w1. split; [exact Hinit|]. split; [reflexivity | exact Hatt].
Qed.

(** ** Closing, and the size of the file *)

(** X12. [syncAndClose] on an open, attached handler calls [fsync] and then
    [close] on its descriptor, which is no longer in the descriptor table
    afterwards; the files are untouched, the handler is closed with no
    pending bytes, and a second [syncAndClose] does nothing. *)
Theorem X12_syncAndClose_releases_descriptor :
  forall h w c,
    _open h = true -> Attached h w c ->
    let '(h', w') := syncAndClose h w in
    _open h' = false /\ _bytes_queued h' = 0
    /\ fds w' !! _fd h = None /\ fs w' = fs w
    /\ trace w' = (if (1 <? FS_LOG_HANDLER_DEBUG_LEVEL)%nat
                   then [ESerial TraceFileClosed] else [])
                  ++ EClose (_fd h) :: EFsync (_fd h) :: trace w
    /\ syncAndClose h' w' = (h', w').
Proof.
  intros h w c Ho [Hfd _]. unfold syncAndClose at 1. rewrite Ho.
  unfold sys_fsync. rewrite Hfd. cbn [snd]. unfold sys_close.
  cbn [fds emit]. rewrite Hfd. cbn [snd].
  split; [reflexivity|]. split; [reflexivity|]. split; [|split; [|split]].
  - rewrite TRACE_PRINT_fds. cbn [fds emit with_fds]. apply lookup_delete_eq.
  - by rewrite TRACE_PRINT_fs.
  - unfold TRACE_PRINT. by destruct (1 <? _)%nat.
  - reflexivity.
Qed.

(** X13. When the log file exists, [getLogSize] returns its length in
    bytes, through the descriptor if the handler is open and attached and
    through the path if it is closed; the initial content of [statbuf]
    plays no part. *)
Theorem X13_getLogSize_of_existing_file :
  forall garbage h w c,
    (_open h = true -> Attached h w c) ->
    (_open h = false -> fs w !! _path h = Some (File c)) ->
    getLogSize garbage h w = Z.of_nat (length c).
Proof.
  intros garbage h w c Hopen Hclosed. unfold getLogSize.
  destruct (_open h).
  - destruct (Hopen eq_refl) as [Hfd Hfs]. unfold sys_fstat. rewrite Hfd.
    cbn [fd_path]. by rewrite Hfs.
  - unfold sys_stat. by rewrite (Hclosed eq_refl).
Qed.

(** ** More on the flush policy *)

Lemma loop_cases now h st w :
  let '(h', st', w') := loop now h st w in
  (h' = h /\ w' = w)
  \/ (_bytes_queued h' = 0
      /\ count_events is_fsync (trace w') = S (count_events is_fsync (trace w))).
Proof.
  unfold loop. destruct (_open h); [|by left].
  destruct (_ || _); [|by left]. right. split; [reflexivity|].
  by rewrite sys_fsync_count, DEBUG_PRINT_count.
Qed.

(** X14. However often [loop] is called, and at whatever times, calls of
    [loop] alone make at most one [fsync]: after the first one nothing is
    pending until something is written again. *)
Theorem X14_ticks_sync_at_most_once :
  forall nows h st w,
    (count_events is_fsync (trace (snd (ticks nows h st w)))
     <= S (count_events is_fsync (trace w)))%nat.
Proof.
  induction nows as [|now nows IH]; intros h st w; cbn [ticks].
  - cbn [snd]. lia.
  - pose proof (loop_cases now h st w) as Hc.
    destruct (loop now h st w) as [[h1 st1] w1].
    destruct Hc as [[-> ->] | [Hz Hcnt]].
    + apply IH.
    + destruct (ticks_idle nows h1 st1 w1 (or_intror Hz)) as [_ Hw].
      rewrite Hw, Hcnt. lia.
Qed.

Lemma to_unsigned_difference last d :
  0 <= d < UINT_MOD -> to_unsigned (to_unsigned (last + d) - last) = d.
Proof.
  intros Hd. unfold to_unsigned. rewrite Zminus_mod_idemp_l.
  replace (last + d - last) with d by lia. by apply Z.mod_small.
Qed.

(** X15. The time test of [loop] survives the wrap-around of the 32-bit
    uptime: if [d] seconds (less than 2^32) have passed since [last_ran],
    the unsigned difference the code computes is [d], so with bytes pending
    the call syncs when [d > 10], and with at most 4096 bytes pending it
    does nothing when [d <= 10]. *)
Theorem X15_loop_time_test_across_uptime_wrap :
  forall last d cursor h w,
    _open h = true -> 0 < _bytes_queued h ->
    0 <= d < UINT_MOD ->
    let st := {| last_ran := Some last; f_cursor := cursor |} in
    let now := to_unsigned (last + d) in
    (10 < d ->
     let '(h', st', w') := loop now h st w in
     count_events is_fsync (trace w') = S (count_events is_fsync (trace w))
     /\ _bytes_queued h' = 0 /\ last_ran st' = Some now)
    /\ (d <= 10 -> _bytes_queued h <= 4096 -> loop now h st w = (h, st, w)).
Proof.
  intros last d cursor h w Ho Hb Hd st now. unfold loop, st, now.
  cbn [last_ran]. rewrite Ho, (to_unsigned_difference last d Hd). split.
  - intros Hgt.
    replace (d >? 10) with true by (symmetry; apply Z.gtb_lt; lia).
    replace (_bytes_queued h >? 0) with true by (symmetry; apply Z.gtb_lt; lia).
    cbn [andb orb]. split; [|split; reflexivity].
    by rewrite sys_fsync_count, DEBUG_PRINT_count.
  - intros Hle Hmax.
    replace (d >? 10) with false by (symmetry; rewrite Z.gtb_ltb; apply Z.ltb_ge; lia).
    replace (_bytes_queued h >? 4096) with false
      by (symmetry; rewrite Z.gtb_ltb; apply Z.ltb_ge; lia).
    reflexivity.
Qed.

(** X16. The first call of [loop] only starts the clock: with at most 4096
    bytes pending it never syncs, however long the bytes have been
    waiting, because [last_ran] is initialised to the time of that very
    call. *)
Theorem X16_first_loop_call_starts_the_clock :
  forall now h st w,
    last_ran st = None -> _bytes_queued h <= 4096 ->
    loop now h st w = (h, set_last_ran now st, w).
Proof.
  intros now h st w Hl Hb. unfold loop. rewrite Hl.
  replace (to_unsigned (now - now)) with 0
    by (unfold to_unsigned; rewrite Z.sub_diag; reflexivity).
  replace (_bytes_queued h >? 4096) with false
    by (symmetry; rewrite Z.gtb_ltb; apply Z.ltb_ge; lia).
  cbn. by destruct (_open h).
Qed.

(** ** More on [dump] *)

Lemma c_string_app_nul chunk rest : c_string (chunk ++ NUL :: rest) = c_string chunk.
Proof.
  induction chunk as [|a chunk IH]; [reflexivity|].
  cbn [app c_string]. destruct (ascii_eqb a NUL); [reflexivity | by rewrite IH].
Qed.

(** After a read of [chunk] and the store of the terminator, [printf]
    prints [chunk] up to its first NUL. *)
Lemma c_string_after_read_any chunk buf :
  (length chunk < length buf)%nat ->
  c_string (buf_store (Z.of_nat (length chunk)) NUL (buf_fill chunk buf)) = c_string chunk.
Proof.
  intros Hl. unfold buf_store.
  rewrite length_buf_fill by lia.
  replace ((0 <=? Z.of_nat (length chunk))
           && (Z.of_nat (length chunk) <? Z.of_nat (length buf))) with true
    by (symmetry; apply andb_true_iff; split; lia).
  rewrite Nat2Z.id. unfold buf_fill.
  rewrite insert_app_r_alt by lia. rewrite Nat.sub_diag.
  destruct (drop (length chunk) buf) as [|y rest] eqn:E.
  - apply (f_equal length) in E. rewrite length_drop in E. simpl in E. lia.
  - cbn. apply c_string_app_nul.
Qed.

Lemma dump_loop_step fuel dump_fd buf st sink w :
  dump_loop (S fuel) dump_fd buf st sink w
  = let '(bytes, data, w) := sys_read dump_fd (BUF_SIZE - 1) w in
    let buf := buf_fill data buf in
    let st := set_f_cursor (f_cursor st + bytes) st in
    let buf := buf_store bytes NUL buf in
    let sink := sink ++ c_string buf in
    let w := emit EProcess w in
    if bytes =? 0 then Returned (st, sink, w)
    else dump_loop fuel dump_fd buf st sink w.
Proof. reflexivity. Qed.

(** One iteration of the loop at or past the end of the file: [read]
    returns 0, nothing is printed, the loop ends. *)
Lemma dump_loop_at_eof fuel fd path off c buf st sink w :
  fds w !! fd = Some {| fd_path := path; fd_off := off; fd_flags := O_RDONLY |} ->
  fs w !! path = Some (File c) ->
  (length c <= off)%nat -> length buf = BUF_SIZE ->
  exists st' w',
    dump_loop (S fuel) fd buf st sink w = Returned (st', sink, w')
    /\ f_cursor st' = f_cursor st /\ last_ran st' = last_ran st.
Proof.
  intros Hfd Hfs Hoff Hb. cbn [dump_loop].
  rewrite (sys_read_ok _ _ _ _ _ _ Hfd Hfs). cbv beta iota zeta.
  rewrite drop_ge by lia. rewrite take_nil.
  rewrite (c_string_after_read_any [] buf) by (rewrite Hb; unfold BUF_SIZE; cbn; lia).
  cbn [length Z.of_nat Z.eqb c_string]. rewrite app_nil_r.
  eexists _, _. split; [reflexivity|]. cbn [f_cursor last_ran set_f_cursor].
  split; [lia | reflexivity].
Qed.

(** X17. An incremental [dump] whose cursor is at or beyond the end of the
    file (nothing new was written, or the file was cleared and restarted
    shorter than before) sends nothing to the sink and leaves the cursor
    where it was: the cursor is never moved back to the new end. *)
Theorem X17_dump_incremental_at_or_past_end :
  forall flt stack fuel h st sink w c,
    open_fails flt = false ->
    fs w !! _path h = Some (File c) ->
    Z.of_nat (length c) <= f_cursor st ->
    exists st' w',
      dump flt stack (S fuel) false h st sink w = Returned (st', sink, w')
      /\ f_cursor st' = f_cursor st.
Proof.
  intros flt stack fuel h st sink w c Hflt Hfs Hcur. unfold dump. rewrite Hflt.
  destruct (sys_open_rdonly_ok _ _ _ Hfs) as (fd & Hmin & Hfree & Hopen).
  rewrite Hopen. unfold MINIMAL_FD in Hmin.
  replace (fd =? 0) with false by (symmetry; apply Z.eqb_neq; lia).
  unfold sys_lseek. cbn [fds emit with_fds with_fs]. rewrite lookup_insert_eq.
  replace (0 <=? f_cursor st) with true by (symmetry; apply Z.leb_le; lia).
  cbn [snd fd_path fd_flags].
  set (w2 := emit (ELseek _ _) _).
  assert (Hfd2 : fds w2 !! fd
                 = Some {| fd_path := _path h; fd_off := Z.to_nat (f_cursor st);
                           fd_flags := O_RDONLY |})
    by apply lookup_insert_eq.
  destruct (dump_loop_at_eof fuel fd (_path h) (Z.to_nat (f_cursor st)) c
              (stack_buffer stack) st sink w2 Hfd2 Hfs ltac:(lia) (length_stack_buffer _))
    as (st' & w' & Hrun & Hc & _).
  rewrite Hrun. eexists _, _. split; [reflexivity | exact Hc].
Qed.

(** X18. A [dump] that returns has put everything back: the files are as
    they were and so is the descriptor table (the descriptor it opened is
    closed again), whatever the file holds. *)
Theorem X18_dump_leaves_no_trace_in_the_filesystem :
  forall flt stack fuel read_from_beginning h st sink w st' sink' w',
    fds w !! (-1) = None ->
    dump flt stack fuel read_from_beginning h st sink w = Returned (st', sink', w') ->
    fs w' = fs w /\ fds w' = fds w.
Proof.
  intros flt stack fuel rfb h st sink w st' sink' w' Hbad. unfold dump.
  pose proof (sys_open_result (open_fails flt) (_path h) O_RDONLY w) as Hopen.
  destruct (sys_open _ _ _ _) as [fd w1]. destruct Hopen as [_ Hopen].
  destruct Hopen as [(-> & Hfs1 & Hfds1)|(Hmin & Hfree & Hfds1 & Hfs1)].
  - cbn [Z.eqb].
    set (p := if rfb then _ else _).
    assert (Hp : fds (snd p) !! (-1) = None).
    { unfold p. destruct rfb; cbn [snd]; [by rewrite Hfds1|].
      unfold sys_lseek. rewrite Hfds1, Hbad. cbn [snd fds emit]. by rewrite Hfds1. }
    destruct p as [st0 w2]. cbn [snd] in Hp.
    destruct (dump_loop_bad_fd fuel (stack_buffer stack) st0 sink w2 Hp)
      as (st3 & w3 & Hrun & _).
    rewrite Hrun. discriminate.
  - unfold MINIMAL_FD in Hmin.
    replace (fd =? 0) with false by (symmetry; apply Z.eqb_neq; lia).
    set (p := if rfb then _ else _).
    assert (Hp : fs (snd p) = fs w1
                 /\ forall k, k <> fd -> fds (snd p) !! k = fds w1 !! k).
    { unfold p. destruct rfb; [by split|]. apply sys_lseek_frame. }
    destruct p as [st0 w2]. cbn [snd] in Hp. destruct Hp as [Hfs2 Hfds2].
    destruct (dump_loop _ _ _ _ _ _) as [[[st3 sink3] w3]|] eqn:Hloop; [|discriminate].
    intros Hr. inversion Hr; subst.
    apply dump_loop_frame in Hloop. destruct Hloop as [Hfs3 Hfds3].
    rewrite sys_close_fs, sys_close_fds. split; [by rewrite Hfs3, Hfs2, Hfs1|].
    apply map_eq. intros k. destruct (decide (k = fd)) as [->|Hk].
    + by rewrite lookup_delete_eq, Hfree.
    + rewrite lookup_delete_ne by congruence.
      rewrite Hfds3, Hfds2, Hfds1 by assumption. by rewrite lookup_insert_ne.
Qed.

(** X19. A file that fits in one chunk and holds a NUL byte: [dump] from
    the beginning sends the sink the bytes before the first NUL only, and
    yet moves the cursor to the end of the file, so the bytes after the NUL
    are not sent by a later incremental [dump] either. *)
Theorem X19_dump_stops_printing_at_NUL :
  forall flt stack fuel h st sink w c,
    open_fails flt = false ->
    fs w !! _path h = Some (File c) ->
    (length c < BUF_SIZE)%nat ->
    exists st' w',
      dump flt stack (S (S fuel)) true h st sink w = Returned (st', sink ++ c_string c, w')
      /\ f_cursor st' = Z.of_nat (length c).
Proof.
  intros flt stack fuel h st sink w c Hflt Hfs Hlen. unfold dump. rewrite Hflt.
  destruct (sys_open_rdonly_ok _ _ _ Hfs) as (fd & Hmin & Hfree & Hopen).
  rewrite Hopen. unfold MINIMAL_FD in Hmin.
  replace (fd =? 0) with false by (symmetry; apply Z.eqb_neq; lia).
  set (w1 := emit (EOpen _ _ _) _).
  assert (Hfs1 : fs w1 !! _path h = Some (File c)) by exact Hfs.
  assert (Hfd1 : fds w1 !! fd
                 = Some {| fd_path := _path h; fd_off := 0; fd_flags := O_RDONLY |})
    by apply lookup_insert_eq.
  destruct (decide (length c = 0)%nat) as [Hz|Hnz].
  - destruct (dump_loop_at_eof (S fuel) fd (_path h) 0%nat c (stack_buffer stack)
                (set_f_cursor 0 st) sink w1 Hfd1 Hfs1 ltac:(lia) (length_stack_buffer _))
      as (st' & w' & Hrun & Hc & _).
    rewrite Hrun. apply nil_length_inv in Hz. subst c.
    eexists _, _. cbn [c_string]. rewrite app_nil_r. split; [reflexivity|].
    rewrite Hc. reflexivity.
  - rewrite dump_loop_step, (sys_read_ok _ _ _ _ _ _ Hfd1 Hfs1). cbv beta iota zeta.
    change (drop 0 c) with c. rewrite take_ge by (unfold BUF_SIZE in *; lia).
    rewrite c_string_after_read_any
      by (rewrite length_stack_buffer; unfold BUF_SIZE in *; lia).
    replace (Z.of_nat (length c) =? 0) with false by (symmetry; apply Z.eqb_neq; lia).
    set (w2 := emit EProcess _).
    assert (Hfd2 : fds w2 !! fd
                   = Some {| fd_path := _path h; fd_off := (0 + length c)%nat;
                             fd_flags := O_RDONLY |})
      by apply lookup_insert_eq.
    destruct (dump_loop_at_eof fuel fd (_path h) (0 + length c)%nat c
                (buf_store (Z.of_nat (length c)) NUL (buf_fill c (stack_buffer stack)))
                (set_f_cursor (f_cursor (set_f_cursor 0 st) + Z.of_nat (length c))
                   (set_f_cursor 0 st))
                (sink ++ c_string c) w2 Hfd2 Hfs1 ltac:(lia))
      as (st' & w' & Hrun & Hc & _).
    { rewrite length_buf_store, length_buf_fill; [apply length_stack_buffer|].
      rewrite length_stack_buffer. unfold BUF_SIZE in *. lia. }
    rewrite Hrun. eexists _, _. split; [reflexivity|].
    rewrite Hc. cbn [f_cursor set_f_cursor]. lia.
Qed.

(** ** Sequences of operations *)

Lemma syncAndClose_enabled h w : _enabled (fst (syncAndClose h w)) = _enabled h.
Proof. unfold syncAndClose. by destruct (_open h). Qed.

(** X22. Records logged while the handler is disabled are dropped for
    good: after any number of them, re-enabling and logging one record
    leaves the open file holding its previous content followed by that one
    record only, on the same descriptor. *)
Theorem X22_disabled_records_are_not_buffered :
  forall records flt msg level category attr h w c,
    _open h = true -> _fd h <> -1 -> Attached h w c -> write_fails flt = false ->
    let '(h1, w1) := logMessages records (enable false h) w in
    let '(h2, w2) := logMessage flt msg level category attr (enable true h1) w1 in
    _open h2 = true /\ _fd h2 = _fd h
    /\ Attached h2 w2 (c ++ list_ascii_of_string (render msg level category attr)).
Proof.
  intros records flt msg level category attr h w c Ho Hfd Ha Hwr.
  assert (Hoff : forall rs h0 w0, _enabled h0 = false -> logMessages rs h0 w0 = (h0, w0)).
  { induction rs as [|[[[[f m] l] g] a] rs IH]; intros h0 w0 He; cbn [logMessages];
      [reflexivity|].
    rewrite logMessage_disabled by assumption. by apply IH. }
  rewrite Hoff by reflexivity.
  set (h1 := enable true (enable false h)).
  assert (Ha1 : Attached h1 w c) by (by apply (Attached_frame h h1 w w)).
  unfold logMessage. cbn [_enabled h1 enable set_enabled negb].
  rewrite (fileInit_open flt h1 w Ho Hfd). cbn [negb].
  pose proof (writeToFile_attached flt (render msg level category attr) h1 w c Ha1) as Hw.
  destruct (writeToFile _ _ _ _) as [h2 w2].
  destruct Hw as (Hfd2 & _ & Ho2 & _ & _ & Ha2). rewrite Hwr in Ha2.
  split; [by rewrite Ho2|]. split; [exact Hfd2 | exact Ha2].
Qed.

(** X23. [clearLogs] followed by a [logMessage], when nothing fails: the
    log file holds the new record and nothing else, whatever it held
    before and whether or not the handler was open. *)
Theorem X23_clearLogs_then_logMessage_starts_afresh :
  forall flt msg level category attr h w filename,
    _enabled h = true ->
    _path h = "/log/" +:+ filename +:+ ".log" -> string_mem "/" filename = false ->
    stat_fails flt = false -> mkdir_fails flt = false ->
    open_fails flt = false -> write_fails flt = false ->
    fs w !! _path h <> Some Dir ->
    let '(h1, w1) := clearLogs h w in
    let '(h2, w2) := logMessage flt msg level category attr h1 w1 in
    _open h2 = true
    /\ Attached h2 w2 (list_ascii_of_string (render msg level category attr)).
Proof.
  intros flt msg level category attr h w filename He Hpath Hfree Hstat Hmk Hopen Hwr Hnd.
  destruct (clearLogs_removes_file h w Hnd) as (Ho1 & Hp1 & Hn1).
  assert (He1 : _enabled (fst (clearLogs h w)) = true).
  { unfold clearLogs. pose proof (syncAndClose_enabled h w) as Hs.
    destruct (syncAndClose h w) as [h0 w0]. cbn [fst] in *. congruence. }
  destruct (clearLogs h w) as [h1 w1]. cbn [fst snd] in *.
  pose proof (logMessage_fresh flt msg level category attr h1 w1 filename He1 Ho1) as Hl.
  rewrite Hp1 in Hl. specialize (Hl Hpath Hfree Hstat Hmk Hopen Hwr).
  rewrite Hn1 in Hl. specialize (Hl ltac:(discriminate)). cbv zeta in Hl.
  destruct (logMessage flt msg level category attr h1 w1) as [h2 w2].
  destruct Hl as (Ho2 & _ & _ & Ha2 & _). by split.
Qed.

(** X20. The line [logMessage] hands to [writeToFile] is a C string
    whenever its ingredients are: if the message, the category, the file,
    function and details attributes and the platform's level names and
    pointer rendering contain no NUL, neither does the rendered line. *)
Theorem X20_rendered_line_is_text :
  forall msg level category attr,
    (forall l, c_str (levelName l)) -> (forall z, c_str (format_pointer z)) ->
    c_str_opt msg -> c_str_opt category ->
    c_str (file attr) -> c_str (function attr) -> c_str (details attr) ->
    c_str (render msg level category attr).
Proof. exact render_c_str. Qed.

(** X21. In every state a program reaches from the constructor, the
    pending counter is within the range of [unsigned int], and a handler
    that is open holds a write descriptor on the file at its path whose
    offset is the end of that file: the handler only ever appends. *)
Theorem X21_reachable_handler_is_attached_at_end_of_file :
  forall filename enable_now w0 calls s,
    run calls (boot filename enable_now w0) = Some s ->
    0 <= _bytes_queued (obj s) < UINT_MOD
    /\ (_open (obj s) = true -> exists c, Attached (obj s) (world s) c).
Proof.
  intros filename enable_now w0 calls s Hr.
  destruct (run_Good calls _ _ (boot_Good filename enable_now w0) Hr) as (_ & Hrange & Ha).
  by split.
Qed.

(** X24. What [logMessage] writes, [dump] delivers: after the first record
    of an enabled handler, in an environment without failures and with C
    strings as inputs, a [dump] from the beginning returns with exactly the
    rendered line sent to the sink and the cursor at its end. *)
Theorem X24_logMessage_then_dump_round_trip :
  forall flt flt' stack fuel msg level category attr h w filename st sink,
    _enabled h = true -> _open h = false ->
    _path h = "/log/" +:+ filename +:+ ".log" -> string_mem "/" filename = false ->
    stat_fails flt = false -> mkdir_fails flt = false ->
    open_fails flt = false -> write_fails flt = false ->
    fs w !! _path h <> Some Dir ->
    open_fails flt' = false ->
    c_str (render msg level category attr) ->
    (String.length (render msg level category attr) < fuel)%nat ->
    let line := list_ascii_of_string (render msg level category attr) in
    let '(h', w') := logMessage flt msg level category attr h w in
    exists st' w'',
      dump flt' stack fuel true h' st sink w' = Returned (st', sink ++ line, w'')
      /\ f_cursor st' = Z.of_nat (length line).
Proof.
  intros flt flt' stack fuel msg level category attr h w filename st sink
    He Ho Hpath Hfree Hstat Hmk Hopen Hwr Hnd Hopen' Htext Hfuel line.
  pose proof (logMessage_fresh flt msg level category attr h w filename
                He Ho Hpath Hfree Hstat Hmk Hopen Hwr Hnd) as Hl. cbv zeta in Hl.
  destruct (logMessage flt msg level category attr h w) as [h' w'].
  destruct Hl as (_ & _ & _ & [_ Hfile] & _).
  destruct (dump_reads flt' stack fuel true h' st sink w' line Hopen' Hfile Htext)
    as (st' & w'' & Hrun & Hcur & _).
  - discriminate.
  - unfold line. rewrite length_list_ascii_of_string. lia.
  - exists st', w''. split; [exact Hrun|]. rewrite Hcur. cbn. lia.
Qed.

(** X25. After the first record of an enabled handler, in an environment
    without failures, [getLogSize] returns the length of the rendered
    line. *)
Theorem X25_getLogSize_after_first_logMessage :
  forall garbage flt msg level category attr h w filename,
    _enabled h = true -> _open h = false ->
    _path h = "/log/" +:+ filename +:+ ".log" -> string_mem "/" filename = false ->
    stat_fails flt = false -> mkdir_fails flt = false ->
    open_fails flt = false -> write_fails flt = false ->
    fs w !! _path h <> Some Dir ->
    let '(h', w') := logMessage flt msg level category attr h w in
    getLogSize garbage h' w'
    = Z.of_nat (String.length (render msg level category attr)).
Proof.
  intros garbage flt msg level category attr h w filename
    He Ho Hpath Hfree Hstat Hmk Hopen Hwr Hnd.
  pose proof (logMessage_fresh flt msg level category attr h w filename
                He Ho Hpath Hfree Hstat Hmk Hopen Hwr Hnd) as Hl. cbv zeta in Hl.
  destruct (logMessage flt msg level category attr h w) as [h' w'].
  destruct Hl as (Ho' & _ & _ & [Hfd Hfile] & _).
  unfold getLogSize, sys_fstat. rewrite Ho', Hfd. cbn [fd_path]. rewrite Hfile.
  cbn [node_size]. by rewrite length_list_ascii_of_string.
Qed.

End Proofs.

(** * The theorems at concrete inputs *)

Lemma C7_witness :
  @logMessages sample_platform
    [(no_faults, Some "hi", LOG_LEVEL_INFO, Some "app", full_attr);
     (no_faults, None, LOG_LEVEL_WARN, None, no_attr)]
    (construct "test" false) used_world
  = (construct "test" false, used_world).
Proof.
  apply (@C7_disabled_logMessage_is_noop sample_platform). reflexivity.
Defined.

Lemma C9_witness :
  let '(h', w') := @writeToFile sample_platform write_fault "lost" open_handler open_world in
  h' = open_handler /\ fs w' = fs open_world /\ fds w' = fds open_world /\
  trace w' = [ESerial DebugWriteFailed] ++ EWrite 3 "lost" (-1) :: trace open_world.
Proof.
  apply (@C9_write_failure_drops_record sample_platform write_fault "lost"
           open_handler open_world).
  reflexivity.
Defined.

Lemma C3_witness :
  (let '(h', st', w') :=
     @loop sample_platform 11 open_handler {| last_ran := Some 0; f_cursor := 0 |}
       open_world in
   count_events is_fsync (trace w') = S (count_events is_fsync (trace open_world))
   /\ trace w' = EFsync (_fd open_handler)
                  :: trace (@DEBUG_PRINT sample_platform
                              (DebugLoopFsync (_bytes_queued open_handler)) open_world)
   /\ h' = set_bytes_queued 0 open_handler
   /\ st' = set_last_ran 11 {| last_ran := Some 0; f_cursor := 0 |})
  /\ (let '(h', st', w') :=
        @loop sample_platform 9 open_handler {| last_ran := Some 0; f_cursor := 0 |}
          open_world in
      h' = open_handler /\ w' = open_world)
  /\ (let '(h', st', w') :=
        @ticks sample_platform [100; to_unsigned (100 + 15)] open_handler statics_init
          open_world in
      h' = set_bytes_queued 0 open_handler
      /\ last_ran st' = Some (to_unsigned (100 + 15))).
Proof.
  assert (Hdefaults : forall (now : Z) (st : Statics),
             _max_bytes_queued open_handler = 4096 /\ _fsync_timeout_s open_handler = 10
             /\ 0 <= _bytes_queued open_handler
             /\ (_open open_handler = false -> _bytes_queued open_handler = 0)).
  { intros. repeat split; simpl; try lia; discriminate. }
  split; [|split].
  - destruct (Hdefaults 11 statics_init) as (H1 & H2 & H3 & H4).
    generalize (@C3_flush_policy_at_defaults sample_platform 11 open_handler
                  {| last_ran := Some 0; f_cursor := 0 |} open_world H1 H2 H3 H4).
    cbv zeta. destruct (loop _ _ _ _) as [[h' st'] w'].
    intros [[Hsync _] _].
    destruct Hsync as (Hc & _ & _ & Hh & Hst & _ & Ht & _).
    { right. split; [simpl; lia | vm_compute; reflexivity]. }
    repeat split; assumption.
  - destruct (Hdefaults 9 statics_init) as (H1 & H2 & H3 & H4).
    generalize (@C3_flush_policy_at_defaults sample_platform 9 open_handler
                  {| last_ran := Some 0; f_cursor := 0 |} open_world H1 H2 H3 H4).
    cbv zeta. destruct (loop _ _ _ _) as [[h' st'] w'].
    intros [[_ Hidle] _].
    destruct Hidle as (Hh & Hw & _).
    { intros [Hbig | [_ Hlate]]; [simpl in Hbig; lia | vm_compute in Hlate; discriminate]. }
    by split.
  - destruct (Hdefaults 100 statics_init) as (H1 & H2 & H3 & H4).
    generalize (@C3_flush_policy_at_defaults sample_platform 100 open_handler
                  statics_init open_world H1 H2 H3 H4).
    cbv zeta. intros [_ [_ Hticks]].
    specialize (Hticks 100 15).
    destruct (ticks _ _ _ _) as [[h' st'] w'].
    destruct Hticks as (Hh & _ & Hst).
    + reflexivity.
    + simpl. lia.
    + simpl. lia.
    + unfold UINT_MOD. lia.
    + by split.
Defined.

Lemma C4_witness :
  exists st' w',
    @dump sample_platform no_faults (list_ascii_of_string "junk") 3 true
      (construct "test" true) statics_init [] empty_world
    = Running (st', [] ++ concat (replicate 3
                 (c_string (stack_buffer (list_ascii_of_string "junk")))), w')
    /\ f_cursor st' = 0 - Z.of_nat 3
    /\ count_events is_serial (trace w') = count_events is_serial (trace empty_world).
Proof.
  apply (@C4_dump_missing_file sample_platform no_faults (list_ascii_of_string "junk") 3 true
           (construct "test" true) statics_init [] empty_world).
  - reflexivity.
  - reflexivity.
Defined.

Lemma C5_witness :
  let '(h', w') := @clearLogs sample_platform open_handler open_world in
  _open h' = false /\ fs w' !! _path h' = None
  /\ getLogSize 12345 h' w' = 12345.
Proof.
  apply (@C5_getLogSize_after_clearLogs sample_platform 12345 open_handler open_world).
  vm_compute. discriminate.
Defined.

Lemma C6_witness :
  exists st1 w1' st2 w2',
    @dump sample_platform no_faults [] 4 true (construct "test" true) statics_init
      [] used_world
    = Returned (st1, [] ++ list_ascii_of_string "old", w1')
    /\ f_cursor st1 = Z.of_nat (length (list_ascii_of_string "old"))
    /\ @dump sample_platform no_faults [] 4 false (construct "test" true) st1
         ([] ++ list_ascii_of_string "old") grown_world
       = Returned (st2, ([] ++ list_ascii_of_string "old") ++ list_ascii_of_string "new", w2')
    /\ f_cursor st2 = Z.of_nat (length (list_ascii_of_string "old")
                                 + length (list_ascii_of_string "new")).
Proof.
  apply (@C6_dump_resumes_at_cursor sample_platform no_faults no_faults [] [] 4%nat 4%nat
           (construct "test" true) statics_init [] used_world grown_world
           (list_ascii_of_string "old") (list_ascii_of_string "new")).
  - reflexivity.
  - reflexivity.
  - repeat constructor; discriminate.
  - repeat constructor; discriminate.
  - reflexivity.
  - reflexivity.
  - simpl. lia.
  - simpl. lia.
Defined.

Lemma C10_witness :
  (_open (obj sample_final) = false -> _bytes_queued (obj sample_final) = 0)
  /\ (_open (obj sample_final) = true -> _fd (obj sample_final) <> -1).
Proof.
  apply (@C10_writer_state_invariant sample_platform "test" true used_world sample_calls
           sample_final).
  vm_compute. reflexivity.
Defined.

Lemma C8_witness :
  let line := list_ascii_of_string
                (@render sample_platform (Some "hi") LOG_LEVEL_INFO (Some "app") no_attr) in
  (let '(h', w') := @logMessage sample_platform no_faults (Some "hi") LOG_LEVEL_INFO
                      (Some "app") no_attr (construct "test" true) used_world in
   count_events is_open_trunc (trace w') = S (count_events is_open_trunc (trace used_world))
   /\ _open h' = true /\ _fd h' = 3
   /\ Attached h' w' line)
  /\ (let '(h', w') := @logMessage sample_platform no_faults (Some "hi") LOG_LEVEL_INFO
                         (Some "app") no_attr open_handler open_world in
      count_events is_open_trunc (trace w') = count_events is_open_trunc (trace open_world)
      /\ _open h' = true /\ _fd h' = _fd open_handler
      /\ Attached h' w' (list_ascii_of_string "hello" ++ line))
  /\ (let '(h', w') := @logMessages sample_platform two_appends open_handler open_world in
      count_events is_open_trunc (trace w') = count_events is_open_trunc (trace open_world)
      /\ _open h' = true /\ _fd h' = _fd open_handler
      /\ Attached h' w' (list_ascii_of_string "hello" ++ @written sample_platform two_appends))
  /\ (let '(h', w') := @logMessages sample_platform two_appends
                         (construct "test" true) used_world in
      count_events is_open_trunc (trace w') = S (count_events is_open_trunc (trace used_world))
      /\ _open h' = true /\ _fd h' = 3
      /\ Attached h' w' (@written sample_platform two_appends)).
Proof.
  cbv zeta. split; [|split; [|split]].
  - generalize (@C8_truncate_on_first_open_then_append sample_platform no_faults (Some "hi")
                  LOG_LEVEL_INFO (Some "app") no_attr (construct "test" true) used_world
                  eq_refl).
    cbv zeta. destruct (logMessage _ _ _ _ _ _ _) as [h' w'].
    intros [[Hfirst _] _]. destruct (Hfirst eq_refl) as (Hcnt & Hopened & _).
    destruct Hopened as (Ho & Hfd & Ha); [vm_compute; discriminate|].
    split; [exact Hcnt|]. split; [exact Ho|]. split; [exact Hfd | exact Ha].
  - generalize (@C8_truncate_on_first_open_then_append sample_platform no_faults (Some "hi")
                  LOG_LEVEL_INFO (Some "app") no_attr open_handler open_world eq_refl).
    cbv zeta. destruct (logMessage _ _ _ _ _ _ _) as [h' w'].
    intros [[_ Hnext] _]. apply (Hnext (list_ascii_of_string "hello")).
    + reflexivity.
    + vm_compute. discriminate.
    + split; reflexivity.
  - generalize (@C8_truncate_on_first_open_then_append sample_platform no_faults (Some "hi")
                  LOG_LEVEL_INFO (Some "app") no_attr open_handler open_world eq_refl).
    cbv zeta. intros [_ [Hseq _]].
    apply (Hseq two_appends (list_ascii_of_string "hello")).
    + reflexivity.
    + vm_compute. discriminate.
    + split; reflexivity.
  - generalize (@C8_truncate_on_first_open_then_append sample_platform no_faults
                  (Some "first") LOG_LEVEL_INFO None no_attr (construct "test" true)
                  used_world eq_refl).
    cbv zeta. intros [_ [_ Hall]].
    apply (Hall (tl two_appends)).
    + reflexivity.
    + vm_compute. discriminate.
Defined.

(** ** Whole programs *)

(** The console receives each record once: the second [dump] starts where
    the first one stopped. *)
Example tail_program :
  option_map (fun s => (string_of_list_ascii (console s), f_cursor (statics s)))
    (@run sample_platform tail_calls (boot "test" true used_world))
  = Some (("[app] INFO: one" +:+ line_end) +:+ ("WARN: two" +:+ line_end), 28).
Proof. vm_compute. reflexivity. Qed.

(** After [configureFsync(100, 1)], 114 pending bytes and 5 seconds do not
    make [loop] call [fsync]. *)
Example reconfigured_program :
  option_map (fun s => (_max_bytes_queued (obj s), _fsync_timeout_s (obj s),
                        _bytes_queued (obj s), count_events is_fsync (trace (world s))))
    (@run sample_platform reconfigured_calls (boot "test" true used_world))
  = Some (100, 1, 114, 0%nat).
Proof. vm_compute. reflexivity. Qed.

(** ** Further theorems at concrete inputs *)

Lemma X1_witness : extractFileName ("src/app" +:+ String "/" "main.cpp") = "main.cpp".
Proof. apply (X1_extractFileName_strips_directory "src/app" "main.cpp"). reflexivity. Defined.

Lemma X3_witness :
  extractFuncName ("void" +:+ String " " ("setup" +:+ String "(" "int)"))
  = ("setup" +:+ String "(" "int)", String.length "setup")
  /\ string_take (snd (extractFuncName ("void" +:+ String " " ("setup" +:+ String "(" "int)"))))
       (fst (extractFuncName ("void" +:+ String " " ("setup" +:+ String "(" "int)"))))
     = "setup".
Proof.
  apply (X3_extractFuncName_on_signature "void" "setup" "int)"); reflexivity.
Defined.

Lemma X6_witness :
  fst (@createDirIfNecessary sample_platform mkdir_fault "/log" blocked_world) = false
  /\ fs (snd (@createDirIfNecessary sample_platform mkdir_fault "/log" blocked_world))
       !! "/log" = None.
Proof.
  apply (@X6_createDirIfNecessary_failed_mkdir_loses_file sample_platform mkdir_fault
           "/log" blocked_world (list_ascii_of_string "x")); reflexivity.
Defined.

Lemma X7_witness :
  fst (@createDirIfNecessary sample_platform no_faults "/log" blocked_world) = true
  /\ fs (snd (@createDirIfNecessary sample_platform no_faults "/log" blocked_world))
       !! "/log" = Some Dir.
Proof.
  apply (@X7_createDirIfNecessary_succeeds sample_platform no_faults "/log" blocked_world);
    reflexivity.
Defined.

Lemma X8_witness :
  @createDirIfNecessary sample_platform no_faults "/log"
    (snd (@createDirIfNecessary sample_platform no_faults "/log" empty_world))
  = (true, @DEBUG_PRINT sample_platform DebugDirExists
             (snd (@createDirIfNecessary sample_platform no_faults "/log" empty_world))).
Proof.
  apply (@X8_createDirIfNecessary_idempotent sample_platform no_faults no_faults "/log"
           empty_world); reflexivity.
Defined.

Lemma X9_witness :
  let line := @render sample_platform (Some "hi") LOG_LEVEL_INFO (Some "app") no_attr in
  let '(h', w') := @logMessage sample_platform no_faults (Some "hi") LOG_LEVEL_INFO
                     (Some "app") no_attr (construct "test" true) blocked_world in
  _open h' = true /\ MINIMAL_FD <= _fd h'
  /\ fs w' !! "/log" = Some Dir
  /\ Attached h' w' (list_ascii_of_string line)
  /\ _bytes_queued h'
     = to_unsigned (_bytes_queued (construct "test" true) + Z.of_nat (String.length line)).
Proof.
  apply (@X9_first_logMessage_creates_directory_and_file sample_platform no_faults
           (Some "hi") LOG_LEVEL_INFO (Some "app") no_attr (construct "test" true)
           blocked_world "test"); try reflexivity.
  vm_compute. discriminate.
Defined.

Lemma X10_witness :
  let '(h', w') := @logMessages sample_platform two_failed_opens
                     (construct "test" true) used_world in
  _open h' = false /\ _bytes_queued h' = _bytes_queued (construct "test" true)
  /\ count_events is_open_trunc (trace w')
     = (length two_failed_opens + count_events is_open_trunc (trace used_world))%nat
  /\ count_events is_write (trace w') = count_events is_write (trace used_world).
Proof.
  apply (@X10_open_failure_is_retried_on_every_call sample_platform two_failed_opens
           (construct "test" true) used_world).
  - reflexivity.
  - reflexivity.
  - repeat constructor.
Defined.

Lemma X11_witness :
  fst (@createDirIfNecessary sample_platform stat_fault "/log" used_world) = false
  /\ exists h1 w1,
       @fileInit sample_platform stat_fault (construct "test" true) used_world
       = (true, h1, w1)
       /\ _open h1 = true /\ Attached h1 w1 [].
Proof.
  apply (@X11_fileInit_ignores_failed_directory_check sample_platform stat_fault
           (construct "test" true) used_world); try reflexivity.
  vm_compute. discriminate.
Defined.

Lemma X12_witness :
  let '(h', w') := @syncAndClose sample_platform open_handler open_world in
  _open h' = false /\ _bytes_queued h' = 0
  /\ fds w' !! _fd open_handler = None /\ fs w' = fs open_world
  /\ trace w' = (if (1 <? @FS_LOG_HANDLER_DEBUG_LEVEL sample_platform)%nat
                 then [ESerial TraceFileClosed] else [])
                ++ EClose (_fd open_handler) :: EFsync (_fd open_handler) :: trace open_world
  /\ @syncAndClose sample_platform h' w' = (h', w').
Proof.
  apply (@X12_syncAndClose_releases_descriptor sample_platform open_handler open_world
           (list_ascii_of_string "hello")).
  - reflexivity.
  - split; reflexivity.
Defined.

Lemma X13_witness :
  getLogSize 999 open_handler open_world = Z.of_nat (length (list_ascii_of_string "hello")).
Proof.
  apply (X13_getLogSize_of_existing_file 999 open_handler open_world
           (list_ascii_of_string "hello")).
  - intros _. split; reflexivity.
  - simpl. discriminate.
Defined.

Lemma X15_witness :
  let st := {| last_ran := Some 4294967291; f_cursor := 0 |} in
  let now := to_unsigned (4294967291 + 15) in
  (10 < 15 ->
   let '(h', st', w') := @loop sample_platform now open_handler st open_world in
   count_events is_fsync (trace w') = S (count_events is_fsync (trace open_world))
   /\ _bytes_queued h' = 0 /\ last_ran st' = Some now)
  /\ (15 <= 10 -> _bytes_queued open_handler <= 4096 ->
      @loop sample_platform now open_handler st open_world = (open_handler, st, open_world)).
Proof.
  apply (@X15_loop_time_test_across_uptime_wrap sample_platform 4294967291 15 0
           open_handler open_world).
  - reflexivity.
  - simpl. lia.
  - unfold UINT_MOD. lia.
Defined.

Lemma X16_witness :
  @loop sample_platform 100 open_handler statics_init open_world
  = (open_handler, set_last_ran 100 statics_init, open_world).
Proof.
  apply (@X16_first_loop_call_starts_the_clock sample_platform 100 open_handler
           statics_init open_world).
  - reflexivity.
  - simpl. lia.
Defined.

Lemma X17_witness :
  exists st' w',
    @dump sample_platform no_faults [] 1 false (construct "test" true)
      {| last_ran := None; f_cursor := 10 |} [] used_world
    = Returned (st', [], w')
    /\ f_cursor st' = f_cursor {| last_ran := None; f_cursor := 10 |}.
Proof.
  apply (@X17_dump_incremental_at_or_past_end sample_platform no_faults [] 0%nat
           (construct "test" true) {| last_ran := None; f_cursor := 10 |} [] used_world
           (list_ascii_of_string "old")).
  - reflexivity.
  - reflexivity.
  - simpl. lia.
Defined.

Lemma X18_witness :
  fs (snd binary_dump) = fs binary_world /\ fds (snd binary_dump) = fds binary_world.
Proof.
  apply (@X18_dump_leaves_no_trace_in_the_filesystem sample_platform no_faults [] 5%nat true
           (construct "test" true) statics_init [] binary_world
           (fst (fst binary_dump)) (snd (fst binary_dump)) (snd binary_dump)).
  - reflexivity.
  - vm_compute. reflexivity.
Defined.

Lemma X19_witness :
  exists st' w',
    @dump sample_platform no_faults [] 2 true (construct "test" true) statics_init
      [] binary_world
    = Returned (st', [] ++ c_string (list_ascii_of_string "ab" ++ NUL :: list_ascii_of_string "cd"),
                w')
    /\ f_cursor st'
       = Z.of_nat (length (list_ascii_of_string "ab" ++ NUL :: list_ascii_of_string "cd")).
Proof.
  apply (@X19_dump_stops_printing_at_NUL sample_platform no_faults [] 0%nat
           (construct "test" true) statics_init [] binary_world
           (list_ascii_of_string "ab" ++ NUL :: list_ascii_of_string "cd")).
  - reflexivity.
  - reflexivity.
  - vm_compute. lia.
Defined.

Lemma X20_witness :
  c_str (@render plain_platform (Some "hi") LOG_LEVEL_INFO (Some "app") full_attr).
Proof.
  apply (@X20_rendered_line_is_text plain_platform (Some "hi") LOG_LEVEL_INFO (Some "app")
           full_attr).
  - intros l. destruct l; unfold c_str, nul_free; cbn; repeat constructor; discriminate.
  - intros z. unfold c_str, nul_free; cbn; repeat constructor; discriminate.
  - unfold c_str_opt, c_str, nul_free; cbn; repeat constructor; discriminate.
  - unfold c_str_opt, c_str, nul_free; cbn; repeat constructor; discriminate.
  - unfold c_str, nul_free; cbn; repeat constructor; discriminate.
  - unfold c_str, nul_free; cbn; repeat constructor; discriminate.
  - unfold c_str, nul_free; cbn; repeat constructor; discriminate.
Defined.

Lemma X21_witness :
  0 <= _bytes_queued (obj tail_final) < UINT_MOD
  /\ (_open (obj tail_final) = true ->
      exists c, Attached (obj tail_final) (world tail_final) c).
Proof.
  apply (@X21_reachable_handler_is_attached_at_end_of_file sample_platform "test" true
           used_world tail_calls tail_final).
  vm_compute. reflexivity.
Defined.

Lemma X22_witness :
  let '(h1, w1) := @logMessages sample_platform
                     [(no_faults, Some "dropped", LOG_LEVEL_INFO, None, no_attr)]
                     (enable false open_handler) open_world in
  let '(h2, w2) := @logMessage sample_platform no_faults (Some "kept") LOG_LEVEL_INFO None
                     no_attr (enable true h1) w1 in
  _open h2 = true /\ _fd h2 = _fd open_handler
  /\ Attached h2 w2
       (list_ascii_of_string "hello"
        ++ list_ascii_of_string
             (@render sample_platform (Some "kept") LOG_LEVEL_INFO None no_attr)).
Proof.
  apply (@X22_disabled_records_are_not_buffered sample_platform
           [(no_faults, Some "dropped", LOG_LEVEL_INFO, None, no_attr)]
           no_faults (Some "kept") LOG_LEVEL_INFO None no_attr open_handler open_world
           (list_ascii_of_string "hello")).
  - reflexivity.
  - simpl. discriminate.
  - split; reflexivity.
  - reflexivity.
Defined.

Lemma X23_witness :
  let '(h1, w1) := @clearLogs sample_platform open_handler open_world in
  let '(h2, w2) := @logMessage sample_platform no_faults (Some "new") LOG_LEVEL_INFO None
                     no_attr h1 w1 in
  _open h2 = true
  /\ Attached h2 w2
       (list_ascii_of_string
          (@render sample_platform (Some "new") LOG_LEVEL_INFO None no_attr)).
Proof.
  apply (@X23_clearLogs_then_logMessage_starts_afresh sample_platform no_faults
           (Some "new") LOG_LEVEL_INFO None no_attr open_handler open_world "test");
    try reflexivity.
  vm_compute. discriminate.
Defined.

Lemma X24_witness :
  let line := list_ascii_of_string
                (@render sample_platform (Some "hi") LOG_LEVEL_INFO (Some "app") no_attr) in
  let '(h', w') := @logMessage sample_platform no_faults (Some "hi") LOG_LEVEL_INFO
                     (Some "app") no_attr (construct "test" true) empty_world in
  exists st' w'',
    @dump sample_platform no_faults [] 100 true h' statics_init [] w'
    = Returned (st', [] ++ line, w'')
    /\ f_cursor st' = Z.of_nat (length line).
Proof.
  apply (@X24_logMessage_then_dump_round_trip sample_platform no_faults no_faults [] 100%nat
           (Some "hi") LOG_LEVEL_INFO (Some "app") no_attr (construct "test" true)
           empty_world "test" statics_init []); try reflexivity.
  - vm_compute. discriminate.
  - unfold c_str, nul_free. vm_compute. repeat constructor; discriminate.
  - vm_compute. lia.
Defined.

Lemma X25_witness :
  let '(h', w') := @logMessage sample_platform no_faults (Some "hi") LOG_LEVEL_INFO
                     (Some "app") no_attr (construct "test" true) empty_world in
  getLogSize 777 h' w'
  = Z.of_nat (String.length
                (@render sample_platform (Some "hi") LOG_LEVEL_INFO (Some "app") no_attr)).
Proof.
  apply (@X25_getLogSize_after_first_logMessage sample_platform 777 no_faults
           (Some "hi") LOG_LEVEL_INFO (Some "app") no_attr (construct "test" true)
           empty_world "test"); try reflexivity.
  vm_compute. discriminate.
Defined.

(** * Where the code departs from the words of the specification *)

(** C3 (the claim as stated fails). Tick at 0 s, log, tick at 9 s,
    [clearLogs] at 9 s (which syncs), log 17 bytes at 10 s: at 11 s the last
    sync is 2 s old and 17 bytes are pending, so a flush is not due by the
    time since the last sync; [loop] syncs all the same, because
    [last_ran] still holds 0. *)
Lemma C3_counterexample :
  let s := fst stale_clock_state in
  let last := snd stale_clock_state in
  @timed_run sample_platform stale_clock_calls (boot "test" true used_world) None
  = Some (s, last)
  /\ last = Some 9 /\ last_ran (statics s) = Some 0
  /\ _max_bytes_queued (obj s) = 4096 /\ _fsync_timeout_s (obj s) = 10
  /\ _open (obj s) = true /\ _bytes_queued (obj s) = 17
  /\ ~ flush_due_since_last_sync 11 (obj s) last
  /\ count_events is_fsync
       (trace (snd (@loop sample_platform 11 (obj s) (statics s) (world s))))
     = S (count_events is_fsync (trace (world s))).
Proof.
  cbv zeta. split; [vm_compute; reflexivity|].
  split; [vm_compute; reflexivity|]. split; [vm_compute; reflexivity|].
  split; [vm_compute; reflexivity|]. split; [vm_compute; reflexivity|].
  split; [vm_compute; reflexivity|]. split; [vm_compute; reflexivity|].
  split; [|vm_compute; reflexivity].
  intros [Hbig | [_ (t & Ht & Hlate)]].
  - vm_compute in Hbig. discriminate.
  - vm_compute in Ht. inversion Ht; subst. vm_compute in Hlate. discriminate.
Qed.

(** C6 (the claim as stated fails). The log holds [old]; after a [dump]
    from the beginning it grows by the three bytes [n], NUL, [w]; the
    incremental [dump] sends one of them, [n], and leaves the cursor at
    6. *)
Lemma C6_counterexample :
  match @dump sample_platform no_faults [] 4 true (construct "test" true) statics_init
          [] used_world with
  | Returned (st1, sink1, _) =>
      sink1 = list_ascii_of_string "old" /\ f_cursor st1 = 3
      /\ match @dump sample_platform no_faults [] 4 false (construct "test" true) st1
                 sink1 nul_grown_world with
         | Returned (st2, sink2, _) =>
             sink2 = list_ascii_of_string "old" ++ list_ascii_of_string "n"
             /\ sink2 <> list_ascii_of_string "old"
                         ++ (list_ascii_of_string "n" ++ NUL :: list_ascii_of_string "w")
             /\ f_cursor st2 = 6
         | Running _ => False
         end
  | Running _ => False
  end.
Proof. vm_compute. repeat split; discriminate. Qed.

(** C9 (the claim as stated fails). At the debug level the header ships
    with, 0, a failed [write] leaves one event in the trace, the [write]
    call itself: nothing is sent to the diagnostic channel. *)
Lemma C9_counterexample :
  @FS_LOG_HANDLER_DEBUG_LEVEL shipped_platform = 0%nat
  /\ fst (sys_write (write_fails write_fault) (_fd open_handler) "lost" open_world) = -1
  /\ trace (snd (@writeToFile shipped_platform write_fault "lost" open_handler open_world))
     = [EWrite 3 "lost" (-1)]
  /\ count_events is_serial
       (trace (snd (@writeToFile shipped_platform write_fault "lost" open_handler open_world)))
     = 0%nat.
Proof. vm_compute. repeat split. Qed.
